(** * CorgiDS: default firmware image (src/firmware_dust.cpp)

    A shallow embedding of [dust::crc16], [dust::default_firmware] and
    [dust::main].

    - [uint8_t], [uint16_t] and [size_t] values are integers of [Z]; every
      conversion to one of these types is written out as a reduction
      modulo 2^8, 2^16 or 2^64.
    - [std::vector<uint8_t>] is a [list Z]; a pointer into the vector is
      the offset of the byte it designates.
    - Statements run in a state monad over the vector whose result is
      [None] as soon as an access leaves the vector (undefined behaviour
      in C++).
    - A value of [enum class Model] is the [int] it is stored as, so that
      values outside the five enumerators can be passed as well.
    - [main] is a function from what its environment answers (whether the
      file could be created) to the requests it makes and how it ends. *)

From Stdlib Require Import ZArith Ascii String Lia.
From stdpp Require Import base numbers option list.

#[local] Open Scope Z_scope.

Module dust.

(** ** Fixed-width integers *)

Definition u8 (x : Z) : Z := x mod 2 ^ 8.
Definition u16 (x : Z) : Z := x mod 2 ^ 16.
Definition size_t (x : Z) : Z := x mod 2 ^ 64.

(** A character literal, as the value of its [char]. *)
Definition chr (c : ascii) : Z := Z.of_N (N_of_ascii c).

(** ** The vector and the statements acting on it *)

Definition M (A : Type) : Type := list Z → option (A * list Z).

Definition ret {A} (a : A) : M A := λ fw, Some (a, fw).

Definition bind {A B} (m : M A) (k : A → M B) : M B :=
  λ fw, match m fw with
        | Some (a, fw') => k a fw'
        | None => None
        end.

Notation "x <~ m ;; k" := (bind m (λ x, k))
  (at level 100, m at next level, right associativity).
Notation "m ;;; k" := (bind m (λ _, k))
  (at level 100, right associativity).

Definition in_bounds (fw : list Z) (i : Z) : bool :=
  (0 <=? i) && (i <? Z.of_nat (length fw)).

(** [p[0] = v] for a pointer [p] at offset [i]; the value is converted to
    [uint8_t]. *)
Definition store (i v : Z) : M unit :=
  λ fw, if in_bounds fw i
        then Some (tt, <[Z.to_nat i := u8 v]> fw)
        else None.

(** Reading [p[0]] for a pointer [p] at offset [i]. *)
Definition load (i : Z) : M Z :=
  λ fw, if in_bounds fw i
        then match fw !! Z.to_nat i with
             | Some b => Some (b, fw)
             | None => None
             end
        else None.

(** Reading a local array or string literal. *)
Definition local {A} (o : option A) : M A :=
  λ fw, match o with
        | Some a => Some (a, fw)
        | None => None
        end.

Definition index {A} (arr : list A) (i : Z) : M A :=
  local (if 0 <=? i then arr !! Z.to_nat i else None).

Definition char_at (s : string) (i : Z) : M Z :=
  local (if 0 <=? i then chr <$> String.get (Z.to_nat i) s else None).

(** [for (T i = lo; i < hi; ++i) body], with the variables the body
    assigns threaded as [s].  The counter never goes past [hi], so its
    increment does not wrap. *)
Fixpoint for_ {S} (n : nat) (i : Z) (body : Z → S → M S) (s : S) : M S :=
  match n with
  | O => ret s
  | S n' => s' <~ body i s ;; for_ n' (i + 1) body s'
  end.

Definition for_range {S} (lo hi : Z) (body : Z → S → M S) (s : S) : M S :=
  for_ (Z.to_nat (hi - lo)) lo body s.

(** [std::copy(std::begin(arr), std::end(arr), firmware.begin() + dst)] *)
Fixpoint copy (arr : list Z) (dst : Z) : M unit :=
  match arr with
  | [] => ret tt
  | x :: arr' => store dst x ;;; copy arr' (dst + 1)
  end.

(** ** crc16 (firmware_dust.cpp, lines 16-27) *)

(** One turn of the inner loop. *)
Definition crc16_bit (crc : Z) : Z :=
  if negb (Z.land crc 1 =? 0)
  then u16 (Z.lxor (Z.shiftr crc 1) 0xA001)
  else u16 (Z.shiftr crc 1).

Definition crc16 (crc data len : Z) : M Z :=
  for_range 0 len
    (λ i crc,
       b <~ load (data + i) ;;
       let crc := u16 (Z.lxor crc b) in
       for_range 0 8 (λ _ crc, ret (crc16_bit crc)) crc)
    crc.

(** ** Model (firmware_dust.cpp, line 30) *)

Inductive Model : Type := Ds | Lite | Dsi | Ique | IqueLite.

(** The value of an enumerator. *)
Definition Model_value (m : Model) : Z :=
  match m with
  | Ds => 0
  | Lite => 1
  | Dsi => 2
  | Ique => 3
  | IqueLite => 4
  end.

Coercion Model_value : Model >-> Z.

(** The enumerator a stored value compares equal to, if any: the [case]
    label a [switch] over the value selects, [None] for [default]. *)
Definition enumerator (model : Z) : option Model :=
  if model =? Ds then Some Ds
  else if model =? Lite then Some Lite
  else if model =? Dsi then Some Dsi
  else if model =? Ique then Some Ique
  else if model =? IqueLite then Some IqueLite
  else None.

(** ** default_firmware (firmware_dust.cpp, lines 33-130) *)

(** Lines 34-50. *)
Definition firmware_len (model : Z) : Z :=
  match enumerator model with
  | Some Dsi => 0x20000
  | Some Ds | Some Lite => 0x40000
  | Some Ique | Some IqueLite => 0x80000
  | None => 0x40000
  end.

(** Lines 54-104: the header fields. *)
Definition write_header (model len : Z) : M unit :=
  store 0x04 0x00 ;;;
  store 0x05 0xDB ;;;
  store 0x06 0x1F ;;;
  store 0x07 0x0F ;;;
  store 0x08 (chr "M") ;;;
  store 0x09 (chr "A") ;;;
  store 0x0A (chr "C") ;;;
  store 0x0B 0x68 ;;;
  let val14 := u16 (size_t (Z.shiftl (Z.shiftr len 17) 12)) in
  store 0x14 (Z.land val14 0xFF) ;;;
  store 0x15 (Z.land (Z.shiftr val14 8) 0xFF) ;;;
  let arr18 := [0x00; 0x00; 0x01; 0x01; 0x06] in
  copy arr18 0x18 ;;;
  match enumerator model with
  | Some Ds => store 0x1D 0xFF
  | Some Lite => store 0x1D 0x20
  | Some Ique => store 0x1D 0x57
  | Some IqueLite => store 0x1D 0x43
  | Some Dsi => store 0x1D 0x63
  | None => ret tt
  end ;;;
  store 0x1E 0xFF ;;;
  store 0x1F 0xFF ;;;
  let values :=
    [u16 (Z.shiftr (size_t (len - 0x200)) 3); 0x0B51; 0x0DB3; 0x4F5D; 0xFFFF] in
  for_range 0 5
    (λ i _,
       v <~ index values i ;;
       store (0x20 + i * 2) (Z.land v 0xFF) ;;;
       v <~ index values i ;;
       store (0x21 + i * 2) (Z.land (Z.shiftr v 8) 0xFF))
    tt.

(** Lines 108-126: the body of the loop over the user settings. *)
Definition write_user_settings (len u : Z) : M unit :=
  let start := size_t (size_t (len - 0x200) + size_t (u * 0x100)) in
  let user := start in
  store (user + 0x00) 5 ;;;
  store (user + 0x02) (if u =? 0 then 1 else 0) ;;;
  store (user + 0x03) 1 ;;;
  store (user + 0x04) 1 ;;;
  let name := "Dust"%string in
  for_range 0 4
    (λ i _,
       c <~ char_at name i ;;
       store (user + (0x06 + i * 2)) c ;;;
       store (user + (0x07 + i * 2)) 0x00)
    tt ;;;
  crc <~ crc16 0xFFFF user 0x70 ;;
  store (user + 0x72) (Z.land crc 0xFF) ;;;
  store (user + 0x73) (Z.land (Z.shiftr crc 8) 0xFF).

Definition default_firmware (model : Z) : option (list Z) :=
  let len := firmware_len model in
  let firmware := replicate (Z.to_nat len) 0 in
  match
    (write_header model len ;;;
     for_range 0 2 (λ u _, write_user_settings len u) tt) firmware
  with
  | Some (_, firmware) => Some firmware
  | None => None
  end.

(** ** Reading an image *)

(** The byte of [fw] at offset [i]. *)
Definition byte_at (fw : list Z) (i : Z) : option Z :=
  if 0 <=? i then fw !! Z.to_nat i else None.

(** The 16-bit little-endian value held by the bytes at [i] and [i + 1]. *)
Definition le16 (fw : list Z) (i : Z) : option Z :=
  match byte_at fw i, byte_at fw (i + 1) with
  | Some lo, Some hi => Some (lo + 2 ^ 8 * hi)
  | _, _ => None
  end.

(** The [n] bytes of [fw] from offset [p] on, as a sequence of their own. *)
Definition slice (fw : list Z) (p n : Z) : list Z :=
  take (Z.to_nat n) (drop (Z.to_nat p) fw).

(** ** The checksum as the specification words it

    "For each input byte: XOR into the low byte of the running value; then
    perform 8 iterations of: if the low bit is set, shift right one bit and
    XOR with 0xA001, else shift right one bit." *)

Definition xor_low_byte (v b : Z) : Z :=
  2 ^ 8 * (v / 2 ^ 8) + Z.lxor (v mod 2 ^ 8) b.

Definition crc16_ref_shift (v : Z) : Z :=
  if Z.testbit v 0
  then Z.lxor (Z.shiftr v 1) 0xA001
  else Z.shiftr v 1.

Definition crc16_ref_byte (v b : Z) : Z :=
  Nat.iter 8 crc16_ref_shift (xor_low_byte v b).

Definition crc16_ref (seed : Z) (data : list Z) : Z :=
  fold_left crc16_ref_byte data seed.

(** ** Reasoning about runs *)

(** [m], run on [fw], returns, and its result and the vector it leaves
    satisfy [Q]. *)
Definition runs {A} (m : M A) (fw : list Z) (Q : A → list Z → Prop) : Prop :=
  ∃ a fw', m fw = Some (a, fw') ∧ Q a fw'.

(** The value [crc16] computes from the bytes it reads. *)
Definition crc16_fold (crc : Z) (bs : list Z) : Z :=
  fold_left (λ crc b, Nat.iter 8 crc16_bit (u16 (Z.lxor crc b))) bs crc.

(** [fw] holds the bytes [bs] from offset [i] on. *)
Fixpoint holds (fw : list Z) (i : Z) (bs : list Z) : Prop :=
  match bs with
  | [] => True
  | b :: bs' => byte_at fw i = Some b ∧ holds fw (i + 1) bs'
  end.

(** What lines 54-104 leave in the first 0x2A bytes; [old] is the byte
    found at 0x1D, which the second [switch] keeps when no [case]
    matches. *)
Record header_bytes (model len : Z) (old : option Z) (fw : list Z) : Prop := {
  header_04 : holds fw 0x04 [0x00; 0xDB; 0x1F; 0x0F];
  header_08 : holds fw 0x08 [0x4D; 0x41; 0x43; 0x68];
  header_14 :
    let val14 := u16 (size_t (Z.shiftl (Z.shiftr len 17) 12)) in
    holds fw 0x14 [Z.land val14 0xFF; Z.land (Z.shiftr val14 8) 0xFF];
  header_18 : holds fw 0x18 [0x00; 0x00; 0x01; 0x01; 0x06];
  header_1D :
    byte_at fw 0x1D =
      match enumerator model with
      | Some Ds => Some 0xFF
      | Some Lite => Some 0x20
      | Some Ique => Some 0x57
      | Some IqueLite => Some 0x43
      | Some Dsi => Some 0x63
      | None => old
      end;
  header_1E : holds fw 0x1E [0xFF; 0xFF];
  header_20 : le16 fw 0x20 = Some (u16 (Z.shiftr (size_t (len - 0x200)) 3));
  header_22 : le16 fw 0x22 = Some 0x0B51;
  header_24 : le16 fw 0x24 = Some 0x0DB3;
  header_26 : le16 fw 0x26 = Some 0x4F5D;
  header_28 : le16 fw 0x28 = Some 0xFFFF
}.

(** The offsets lines 54-104 write to. *)
Definition header_offsets : list Z :=
  [0x04; 0x05; 0x06; 0x07; 0x08; 0x09; 0x0A; 0x0B; 0x14; 0x15;
   0x18; 0x19; 0x1A; 0x1B; 0x1C; 0x1D; 0x1E; 0x1F; 0x20; 0x21;
   0x22; 0x23; 0x24; 0x25; 0x26; 0x27; 0x28; 0x29].

(** The offsets lines 108-126 write to, relative to [user]. *)
Definition user_offsets : list Z :=
  [0x00; 0x02; 0x03; 0x04; 0x06; 0x07; 0x08; 0x09; 0x0A; 0x0B; 0x0C; 0x0D;
   0x72; 0x73].

(** What lines 108-126 leave in the user settings at [user], for the
    loop counter [u]. *)
Record user_bytes (u user : Z) (fw : list Z) : Prop := {
  user_00 : byte_at fw (user + 0x00) = Some 5;
  user_02 : byte_at fw (user + 0x02) = Some (if u =? 0 then 1 else 0);
  user_03 : holds fw (user + 0x03) [1; 1];
  user_06 :
    holds fw (user + 0x06)
      [chr "D"; 0x00; chr "u"; 0x00; chr "s"; 0x00; chr "t"; 0x00];
  user_crc :
    ∃ crc, crc16 0xFFFF user 0x70 fw = Some (crc, fw)
           ∧ le16 fw (user + 0x72) = Some crc
}.

(** The image [default_firmware] returns for [model], [len] being the
    length the first [switch] chooses. *)
Record image (model len : Z) (fw : list Z) : Prop := {
  image_length : Z.of_nat (length fw) = len;
  image_header : header_bytes model len (Some 0) fw;
  image_user_0 : user_bytes 0 (len - 0x200) fw;
  image_user_1 : user_bytes 1 (len - 0x100) fw;
  image_zero : ∀ j,
    0 <= j < len →
    Forall (λ k, j ≠ k) header_offsets →
    Forall (λ k, j ≠ len - 0x200 + k) user_offsets →
    Forall (λ k, j ≠ len - 0x100 + k) user_offsets →
    byte_at fw j = Some 0
}.

(** ** The user settings of an image *)

(** The checksum a block of user settings holds at 0x72 is the one
    [crc16] computes from the first 0x70 bytes of the block. *)
Definition crc_stored (block : list Z) : Prop :=
  ∃ crc, crc16 0xFFFF 0 0x70 block = Some (crc, block)
         ∧ le16 block 0x72 = Some crc.

(** The bytes every block of user settings starts with, 0x02 apart. *)
Definition user_fixed (block : list Z) : Prop :=
  byte_at block 0x00 = Some 5
  ∧ byte_at block 0x03 = Some 1
  ∧ byte_at block 0x04 = Some 1
  ∧ holds block 0x06
      [chr "D"; 0x00; chr "u"; 0x00; chr "s"; 0x00; chr "t"; 0x00].

(** ** Invariants of runs *)

(** Whatever [m] returns, it leaves [P] as it finds it. *)
Definition keeps {A} (P : list Z → Prop) (m : M A) : Prop :=
  ∀ fw a fw', P fw → m fw = Some (a, fw') → P fw'.

(** Every element of the vector is a value of [uint8_t]. *)
Definition all_bytes (fw : list Z) : Prop := Forall (λ b, 0 <= b < 2 ^ 8) fw.

(** ** The image, byte for byte *)

(** The first 0x2A bytes of the image for [model]. *)
Definition header_of (model : Z) : list Z :=
  let len := firmware_len model in
  let val14 := u16 (size_t (Z.shiftl (Z.shiftr len 17) 12)) in
  let val20 := u16 (Z.shiftr (size_t (len - 0x200)) 3) in
  [0; 0; 0; 0; 0x00; 0xDB; 0x1F; 0x0F; 0x4D; 0x41; 0x43; 0x68;
   0; 0; 0; 0; 0; 0; 0; 0;
   Z.land val14 0xFF; Z.land (Z.shiftr val14 8) 0xFF; 0; 0;
   0x00; 0x00; 0x01; 0x01; 0x06;
   match enumerator model with
   | Some Ds => 0xFF
   | Some Lite => 0x20
   | Some Ique => 0x57
   | Some IqueLite => 0x43
   | Some Dsi => 0x63
   | None => 0
   end;
   0xFF; 0xFF;
   Z.land val20 0xFF; Z.land (Z.shiftr val20 8) 0xFF;
   0x51; 0x0B; 0xB3; 0x0D; 0x5D; 0x4F; 0xFF; 0xFF].

(** The bytes of a block of user settings that its checksum covers, but
    for the zeros they end with; [active] is the byte at 0x02. *)
Definition user_prefix (active : Z) : list Z :=
  [5; 0; active; 1; 1; 0; 0x44; 0; 0x75; 0; 0x73; 0; 0x74; 0].

(** A block of user settings: 0x100 bytes, the checksum [crc] at 0x72. *)
Definition user_of (active crc : Z) : list Z :=
  user_prefix active ++ replicate 100 0
  ++ [Z.land crc 0xFF; Z.land (Z.shiftr crc 8) 0xFF] ++ replicate 140 0.

Definition image_of (model : Z) : list Z :=
  header_of model
  ++ replicate (Z.to_nat (firmware_len model - 0x22A)) 0
  ++ user_of 1 0xBBC7 ++ user_of 0 0x0C8E.

(** ** main (firmware_dust.cpp, lines 133-159) *)

(** What [main] asks of its environment, in order. *)
Inductive event : Type :=
| Open (path : string)
| Write (bytes : list Z)
| Close
| Cout (s : string)
| CoutSize (n : Z)
| Cerr (s : string).

(** How [main] ends: it returns, an [assert] aborts it, or it has left
    the vector. *)
Inductive outcome : Type :=
| Return (code : Z)
| AssertionFailed
| Undefined.

Definition nl : string := String "010" EmptyString.

(** [assert(fw[i] == expected);] after the events [t], then [k]. *)
Definition assert_byte (fw : list Z) (i expected : Z) (t : list event)
    (k : list event * outcome) : list event * outcome :=
  match byte_at fw i with
  | Some b => if b =? expected then k else (t, AssertionFailed)
  | None => (t, Undefined)
  end.

(** Lines 136-158, for the local [model]; [opened] tells whether the
    stream is good once it is constructed. *)
Definition main_body (model : Z) (opened : bool) : list event * outcome :=
  match default_firmware model with
  | None => ([], Undefined)
  | Some fw =>
      let t := [Open "firmware_dust.bin"] in
      if negb opened
      then (t ++ [Cerr ("Failed to create file" ++ nl)], Return 1)
      else
        let t := t ++ [Write fw; Close] in
        let t := t ++ [Cout "Saved firmware_dust.bin (";
                       CoutSize (Z.of_nat (length fw));
                       Cout (" bytes)" ++ nl)] in
        assert_byte fw 0x08 (chr "M") t
          (assert_byte fw 0x09 (chr "A") t
             (assert_byte fw 0x0A (chr "C") t
                (assert_byte fw 0x0B 0x68 t
                   (t ++ [Cout ("Basic sanity check passed." ++ nl)],
                    Return 0))))
  end.

Definition main (opened : bool) : list event * outcome :=
  let model := Ds in
  main_body model opened.

(** * Properties *)

(** ** Runs on small inputs *)

Example crc16_check_string :
  let data := map chr ["1"; "2"; "3"; "4"; "5"; "6"; "7"; "8"; "9"]%char in
  crc16 0xFFFF 0 9 data = Some (0x4B37, data).
Proof. reflexivity. Qed.

Example crc16_inside_a_vector :
  fst <$> crc16 0xFFFF 2 3 [9; 9; 0x31; 0x32; 0x33; 9]
  = fst <$> crc16 0xFFFF 0 3 [0x31; 0x32; 0x33].
Proof. reflexivity. Qed.

Example crc16_past_the_end : crc16 0xFFFF 2 3 [0; 0; 0; 0] = None.
Proof. reflexivity. Qed.

Example store_converts : store 1 0x1FF [0; 0; 0] = Some (tt, [0; 0xFF; 0]).
Proof. reflexivity. Qed.

Example store_past_the_end : store 3 1 [0; 0; 0] = None.
Proof. reflexivity. Qed.

Example enumerator_Ique : enumerator 3 = Some Ique.
Proof. reflexivity. Qed.

Example enumerator_unmapped : enumerator 7 = None ∧ enumerator (-1) = None.
Proof. split; reflexivity. Qed.

Example write_header_Ds :
  write_header Ds 0x40000 (replicate 0x2C 0)
  = Some (tt, [0; 0; 0; 0; 0x00; 0xDB; 0x1F; 0x0F; 0x4D; 0x41; 0x43; 0x68;
               0; 0; 0; 0; 0; 0; 0; 0; 0x00; 0x20; 0; 0;
               0x00; 0x00; 0x01; 0x01; 0x06; 0xFF; 0xFF; 0xFF;
               0xC0; 0x7F; 0x51; 0x0B; 0xB3; 0x0D; 0x5D; 0x4F; 0xFF; 0xFF;
               0; 0]).
Proof. vm_compute. reflexivity. Qed.

Example write_header_unmapped_1D :
  (λ r, byte_at (snd r) 0x1D) <$> write_header 7 0x40000 (replicate 0x2A 0)
  = Some (Some 0).
Proof. vm_compute. reflexivity. Qed.

Example write_header_short_vector :
  write_header Ds 0x40000 (replicate 0x29 0) = None.
Proof. vm_compute. reflexivity. Qed.

Example write_user_settings_0 :
  (λ r, slice (snd r) 0 0x10)
    <$> write_user_settings 0x200 0 (replicate 0x200 0)
  = Some [5; 0; 1; 1; 1; 0; 0x44; 0; 0x75; 0; 0x73; 0; 0x74; 0; 0; 0].
Proof. vm_compute. reflexivity. Qed.

Example header_of_Ds :
  header_of Ds
  = [0; 0; 0; 0; 0x00; 0xDB; 0x1F; 0x0F; 0x4D; 0x41; 0x43; 0x68;
     0; 0; 0; 0; 0; 0; 0; 0; 0x00; 0x20; 0; 0;
     0x00; 0x00; 0x01; 0x01; 0x06; 0xFF; 0xFF; 0xFF;
     0xC0; 0x7F; 0x51; 0x0B; 0xB3; 0x0D; 0x5D; 0x4F; 0xFF; 0xFF].
Proof. reflexivity. Qed.

Example user_of_checksum :
  slice (user_of 1 0xBBC7) 0x72 2 = [0xC7; 0xBB]
  ∧ slice (user_of 0 0x0C8E) 0x72 2 = [0x8E; 0x0C].
Proof. split; reflexivity. Qed.

Example assert_byte_fails :
  assert_byte [0x4D; 0x00] 1 (chr "A") [Close] ([], Return 0)
  = ([Close], AssertionFailed).
Proof. reflexivity. Qed.

(** ** Bit-level facts *)

Lemma lxor_mod_pow2 a b n :
  0 <= n → Z.lxor (a mod 2 ^ n) (b mod 2 ^ n) = Z.lxor a b mod 2 ^ n.
Proof.
  intros Hn. apply Z.bits_inj'. intros m Hm.
  rewrite Z.lxor_spec, !Z.testbit_mod_pow2, Z.lxor_spec by lia.
  destruct (m <? n); reflexivity.
Qed.

Lemma lxor_range a b n :
  0 <= n → 0 <= a < 2 ^ n → 0 <= b < 2 ^ n → 0 <= Z.lxor a b < 2 ^ n.
Proof.
  intros Hn Ha Hb.
  rewrite <- (Z.mod_small a (2 ^ n)), <- (Z.mod_small b (2 ^ n)) by lia.
  rewrite lxor_mod_pow2 by lia. apply Z.mod_pos_bound. lia.
Qed.

Lemma testbit_high a n m : 0 <= a < 2 ^ n → n <= m → Z.testbit a m = false.
Proof.
  intros Ha Hm. destruct (Z.le_gt_cases 0 n).
  - rewrite <- (Z.mod_small a (2 ^ n)) by lia. apply Z.mod_pow2_bits_high. lia.
  - rewrite Z.pow_neg_r in Ha; lia.
Qed.

Lemma xor_low_byte_lxor v b :
  0 <= b < 2 ^ 8 → xor_low_byte v b = Z.lxor v b.
Proof.
  intros Hb. unfold xor_low_byte.
  assert (Hl : 0 <= Z.lxor (v mod 2 ^ 8) b < 2 ^ 8).
  { apply lxor_range; [lia | apply Z.mod_pos_bound; lia | lia]. }
  set (l := Z.lxor (v mod 2 ^ 8) b) in *.
  set (y := 2 ^ 8 * (v / 2 ^ 8) + l).
  assert (Hq : y / 2 ^ 8 = v / 2 ^ 8).
  { unfold y. rewrite Z.add_comm, Z.mul_comm, Z.div_add by lia.
    rewrite Z.div_small; lia. }
  assert (Hr : y mod 2 ^ 8 = l).
  { unfold y. rewrite Z.add_comm, Z.mul_comm, Z.mod_add by lia.
    apply Z.mod_small; lia. }
  apply Z.bits_inj'. intros m Hm. rewrite Z.lxor_spec.
  destruct (Z.lt_ge_cases m 8) as [Hlt | Hge].
  - rewrite <- (Z.mod_pow2_bits_low y 8 m), Hr by lia.
    unfold l. rewrite Z.lxor_spec, Z.mod_pow2_bits_low by lia. reflexivity.
  - rewrite (testbit_high b 8 m) by lia.
    replace m with (m - 8 + 8) by lia.
    rewrite <- !Z.div_pow2_bits, Hq by lia. rewrite xorb_false_r. reflexivity.
Qed.

Lemma low_bit_set v : negb (Z.land v 1 =? 0) = Z.testbit v 0.
Proof.
  change 1 with (Z.ones 1). rewrite Z.land_ones by lia.
  change (2 ^ 1) with 2. rewrite <- Z.bit0_mod.
  destruct (Z.testbit v 0); reflexivity.
Qed.

Lemma crc16_bit_ref v :
  0 <= v < 2 ^ 16 → crc16_bit v = crc16_ref_shift v ∧ 0 <= crc16_bit v < 2 ^ 16.
Proof.
  intros Hv. unfold crc16_bit, crc16_ref_shift, u16. rewrite low_bit_set.
  assert (Hs : 0 <= Z.shiftr v 1 < 2 ^ 16).
  { rewrite Z.shiftr_div_pow2 by lia. split.
    - apply Z.div_pos; lia.
    - apply Z.div_lt_upper_bound; lia. }
  assert (Hx : 0 <= Z.lxor (Z.shiftr v 1) 0xA001 < 2 ^ 16).
  { apply lxor_range; lia. }
  destruct (Z.testbit v 0); rewrite Z.mod_small by lia;
    (split; [reflexivity | lia]).
Qed.

Lemma crc16_bits_ref n v :
  0 <= v < 2 ^ 16 →
  Nat.iter n crc16_bit v = Nat.iter n crc16_ref_shift v
  ∧ 0 <= Nat.iter n crc16_bit v < 2 ^ 16.
Proof.
  intros Hv. induction n as [|n [IHe IHr]]; simpl.
  - split; [reflexivity | lia].
  - destruct (crc16_bit_ref _ IHr) as [He Hr]. rewrite <- IHe. auto.
Qed.

(** What one turn of the outer loop of [crc16] does to [crc], given the
    byte it reads. *)
Lemma crc16_byte_ref v b :
  0 <= v < 2 ^ 16 → 0 <= b < 2 ^ 8 →
  Nat.iter 8 crc16_bit (u16 (Z.lxor v b)) = crc16_ref_byte v b
  ∧ 0 <= crc16_ref_byte v b < 2 ^ 16.
Proof.
  intros Hv Hb. unfold crc16_ref_byte. rewrite xor_low_byte_lxor by lia.
  assert (Hx : 0 <= Z.lxor v b < 2 ^ 16) by (apply lxor_range; lia).
  unfold u16. rewrite Z.mod_small by lia.
  destruct (crc16_bits_ref 8 _ Hx) as [He Hr]. rewrite <- He. auto.
Qed.

(** ** Bytes of a vector *)

Lemma byte_at_lookup fw i : 0 <= i → byte_at fw i = fw !! Z.to_nat i.
Proof. intros Hi. unfold byte_at. destruct (Z.leb_spec 0 i); [reflexivity | lia]. Qed.

Lemma byte_at_is_Some fw i :
  is_Some (byte_at fw i) ↔ 0 <= i < Z.of_nat (length fw).
Proof.
  unfold byte_at. destruct (Z.leb_spec 0 i).
  - rewrite lookup_lt_is_Some. lia.
  - split; [intros [? ?]; discriminate | lia].
Qed.

Lemma in_bounds_true fw i : 0 <= i < Z.of_nat (length fw) → in_bounds fw i = true.
Proof. intros Hi. unfold in_bounds. apply andb_true_iff. lia. Qed.

Lemma byte_at_insert_eq fw i v :
  0 <= i < Z.of_nat (length fw) → byte_at (<[Z.to_nat i := v]> fw) i = Some v.
Proof.
  intros Hi. rewrite byte_at_lookup by lia. apply list_lookup_insert_eq. lia.
Qed.

Lemma byte_at_insert_ne fw i j v :
  0 <= i → i ≠ j → byte_at (<[Z.to_nat i := v]> fw) j = byte_at fw j.
Proof.
  intros Hi Hne. unfold byte_at. destruct (Z.leb_spec 0 j); [|reflexivity].
  apply list_lookup_insert_ne. lia.
Qed.

Lemma byte_at_replicate n x i :
  0 <= i < n → byte_at (replicate (Z.to_nat n) x) i = Some x.
Proof.
  intros Hi. rewrite byte_at_lookup by lia. apply lookup_replicate_2. lia.
Qed.

Lemma byte_at_slice fw p n k :
  0 <= p → 0 <= k < n → byte_at (slice fw p n) k = byte_at fw (p + k).
Proof.
  intros Hp Hk. rewrite !byte_at_lookup by lia. unfold slice.
  rewrite lookup_take_lt by lia. rewrite lookup_drop. f_equal. lia.
Qed.

Lemma length_slice fw p n :
  0 <= p → 0 <= n → p + n <= Z.of_nat (length fw) →
  Z.of_nat (length (slice fw p n)) = n.
Proof.
  intros Hp Hn Hb. unfold slice. rewrite length_take, length_drop. lia.
Qed.

(** ** Rules for runs *)

Lemma runs_ret {A} (a : A) fw Q : Q a fw → runs (ret a) fw Q.
Proof. intros HQ. exists a, fw. auto. Qed.

Lemma runs_bind {A B} (m : M A) (k : A → M B) fw Q :
  runs m fw (λ a fw', runs (k a) fw' Q) → runs (bind m k) fw Q.
Proof.
  intros (a & fw' & Hm & b & fw'' & Hk & HQ).
  exists b, fw''. unfold bind. rewrite Hm. auto.
Qed.

Lemma runs_mono {A} (m : M A) fw (Q Q' : A → list Z → Prop) :
  runs m fw Q → (∀ a fw', Q a fw' → Q' a fw') → runs m fw Q'.
Proof. intros (a & fw' & Hm & HQ) HQQ'. exists a, fw'. auto. Qed.

Lemma runs_store i v fw (Q : unit → list Z → Prop) :
  0 <= i < Z.of_nat (length fw) →
  Q tt (<[Z.to_nat i := u8 v]> fw) → runs (store i v) fw Q.
Proof.
  intros Hi HQ. eexists _, _. split; [|exact HQ].
  unfold store. rewrite in_bounds_true by lia. reflexivity.
Qed.

Lemma runs_load i b fw (Q : Z → list Z → Prop) :
  byte_at fw i = Some b → Q b fw → runs (load i) fw Q.
Proof.
  intros Hb HQ. exists b, fw. split; [|exact HQ].
  assert (Hi : 0 <= i < Z.of_nat (length fw)).
  { apply byte_at_is_Some. eauto. }
  unfold load. rewrite in_bounds_true by lia.
  rewrite byte_at_lookup in Hb by lia. rewrite Hb. reflexivity.
Qed.

Lemma runs_local {A} (a : A) fw Q : Q a fw → runs (local (Some a)) fw Q.
Proof. intros HQ. exists a, fw. auto. Qed.

Lemma bind_eq {A B} (m : M A) (k : A → M B) fw a fw' r :
  m fw = Some (a, fw') → k a fw' = r → bind m k fw = r.
Proof. intros Hm Hk. unfold bind. rewrite Hm. exact Hk. Qed.

Lemma for_S {S} n i (body : Z → S → M S) s fw a fw' :
  body i s fw = Some (a, fw') →
  for_ (Datatypes.S n) i body s fw = for_ n (i + 1) body a fw'.
Proof. intros Hb. cbn [for_]. apply bind_eq with (1 := Hb). reflexivity. Qed.

(** ** crc16 *)

Lemma crc16_inner_loop crc fw :
  for_range 0 8 (λ _ crc, ret (crc16_bit crc)) crc fw
  = Some (Nat.iter 8 crc16_bit crc, fw).
Proof. reflexivity. Qed.

Lemma crc16_loop p fw n : ∀ i crc,
  0 <= p + i → p + i + Z.of_nat n <= Z.of_nat (length fw) →
  for_ n i
    (λ i crc,
       b <~ load (p + i) ;;
       let crc := u16 (Z.lxor crc b) in
       for_range 0 8 (λ _ crc, ret (crc16_bit crc)) crc)
    crc fw
  = Some (crc16_fold crc (take n (drop (Z.to_nat (p + i)) fw)), fw).
Proof.
  induction n as [|n IH]; intros i crc Hlo Hhi.
  - reflexivity.
  - destruct (fw !! Z.to_nat (p + i)) as [b|] eqn:Hb.
    2:{ apply lookup_ge_None in Hb. lia. }
    rewrite (drop_S _ _ _ Hb).
    rewrite (for_S _ _ _ _ _ (Nat.iter 8 crc16_bit (u16 (Z.lxor crc b))) fw).
    + rewrite IH by lia.
      replace (Z.to_nat (p + (i + 1))) with (S (Z.to_nat (p + i))) by lia.
      reflexivity.
    + cbv beta zeta. apply bind_eq with (a := b) (fw' := fw).
      * unfold load. rewrite in_bounds_true, Hb by lia. reflexivity.
      * apply crc16_inner_loop.
Qed.

(** [crc16] reads the [len] bytes at [data] and leaves the vector as it
    is. *)
Lemma crc16_slice crc data len fw :
  0 <= data → 0 <= len → data + len <= Z.of_nat (length fw) →
  crc16 crc data len fw = Some (crc16_fold crc (slice fw data len), fw).
Proof.
  intros Hd Hl Hb. unfold crc16, for_range.
  rewrite crc16_loop by lia. unfold slice.
  replace (len - 0) with len by lia. replace (data + 0) with data by lia.
  reflexivity.
Qed.

Lemma crc16_fold_ref bs : ∀ crc,
  0 <= crc < 2 ^ 16 → Forall (λ b, 0 <= b < 2 ^ 8) bs →
  crc16_fold crc bs = crc16_ref crc bs ∧ 0 <= crc16_fold crc bs < 2 ^ 16.
Proof.
  induction bs as [|b bs IH]; intros crc Hc Hbs.
  - split; [reflexivity | exact Hc].
  - apply Forall_cons in Hbs as [Hb Hbs].
    destruct (crc16_byte_ref crc b Hc Hb) as [He Hr].
    unfold crc16_fold, crc16_ref. cbn [fold_left]. rewrite He.
    apply IH; assumption.
Qed.

Lemma runs_index {A} (arr : list A) i a fw Q :
  0 <= i → arr !! Z.to_nat i = Some a → Q a fw → runs (index arr i) fw Q.
Proof.
  intros Hi Ha HQ. unfold index.
  destruct (Z.leb_spec 0 i); [|lia]. rewrite Ha. apply runs_local, HQ.
Qed.

Lemma runs_char_at s i c fw Q :
  0 <= i → String.get (Z.to_nat i) s = Some c →
  Q (chr c) fw → runs (char_at s i) fw Q.
Proof.
  intros Hi Hc HQ. unfold char_at.
  destruct (Z.leb_spec 0 i); [|lia]. rewrite Hc. apply runs_local, HQ.
Qed.

Lemma runs_crc16 crc data len fw (Q : Z → list Z → Prop) :
  0 <= data → 0 <= len → data + len <= Z.of_nat (length fw) →
  Q (crc16_fold crc (slice fw data len)) fw → runs (crc16 crc data len) fw Q.
Proof.
  intros Hd Hl Hb HQ. eexists _, _. split; [|exact HQ].
  apply crc16_slice; assumption.
Qed.

Lemma byte_at_insert_same fw i j v :
  0 <= i < Z.of_nat (length fw) → i = j →
  byte_at (<[Z.to_nat i := v]> fw) j = Some v.
Proof. intros Hi <-. apply byte_at_insert_eq, Hi. Qed.

(** ** Symbolic execution *)

Ltac bounds := rewrite ?length_insert; lia.

Ltac run_step :=
  lazymatch goal with
  | |- runs (bind _ _) _ _ => apply runs_bind
  | |- runs (store _ _) _ _ => apply runs_store; [bounds|]
  | |- runs (ret _) _ _ => apply runs_ret
  | |- runs (index _ _) _ _ => eapply runs_index; [lia | reflexivity |]
  | |- runs (char_at _ _) _ _ => eapply runs_char_at; [lia | reflexivity |]
  | |- runs (crc16 _ _ _) _ _ => apply runs_crc16; [lia | lia | bounds |]
  | |- runs (for_range ?lo ?hi _ _) _ _ =>
      unfold for_range;
      let n := eval vm_compute in (Z.to_nat (hi - lo)) in
      change (Z.to_nat (hi - lo)) with n;
      cbn [for_]
  | |- runs (copy _ _) _ _ => cbn [copy]
  end.

Ltac bytes :=
  repeat first
    [ rewrite byte_at_insert_ne by lia
    | rewrite byte_at_insert_same by bounds ].

(** ** Stored values *)

Lemma u8_land_FF x : u8 (Z.land x 0xFF) = Z.land x 0xFF.
Proof.
  change 0xFF with (Z.ones 8). rewrite Z.land_ones by lia.
  unfold u8. apply Z.mod_mod. lia.
Qed.

Lemma le16_bytes v :
  0 <= v < 2 ^ 16 →
  Z.land v 0xFF + 2 ^ 8 * Z.land (Z.shiftr v 8) 0xFF = v.
Proof.
  intros Hv. change 0xFF with (Z.ones 8). rewrite !Z.land_ones by lia.
  rewrite Z.shiftr_div_pow2 by lia.
  rewrite (Z.mod_small (v / 2 ^ 8)).
  - symmetry. rewrite Z.add_comm. apply Z.div_mod. lia.
  - split; [apply Z.div_pos; lia | apply Z.div_lt_upper_bound; lia].
Qed.

Lemma u16_range x : 0 <= u16 x < 2 ^ 16.
Proof. apply Z.mod_pos_bound. lia. Qed.

Ltac split_offsets H :=
  repeat (apply Forall_cons in H as [? H]); clear H.

Lemma write_header_runs model len fw :
  0x2A <= Z.of_nat (length fw) →
  runs (write_header model len) fw
    (λ _ fw',
       length fw' = length fw
       ∧ (∀ j, Forall (λ k, j ≠ k) header_offsets →
               byte_at fw' j = byte_at fw j)
       ∧ header_bytes model len (byte_at fw 0x1D) fw').
Proof.
  intros Hlen. unfold write_header. cbv zeta.
  destruct (enumerator model) as [[]|] eqn:He; repeat run_step.
  all: split; [bounds|]; split.
  all: try (intros j Hj; unfold header_offsets in Hj; split_offsets Hj;
            bytes; reflexivity).
  all: constructor; rewrite ?He; cbn [holds]; unfold le16; bytes;
    cbv beta iota;
    rewrite ?u8_land_FF, ?le16_bytes by apply u16_range;
    repeat split; reflexivity.
Qed.

Lemma slice_ext fw fw' p n :
  0 <= p → 0 <= n → p + n <= Z.of_nat (length fw) →
  length fw' = length fw →
  (∀ k, 0 <= k < n → byte_at fw' (p + k) = byte_at fw (p + k)) →
  slice fw' p n = slice fw p n.
Proof.
  intros Hp Hn Hb Hlen Hk. apply list_eq. intros i.
  destruct (decide (Z.of_nat i < n)) as [Hi | Hi].
  - specialize (Hk (Z.of_nat i) ltac:(lia)).
    rewrite <- !byte_at_slice with (n := n) in Hk by lia.
    rewrite !byte_at_lookup, Nat2Z.id in Hk by lia. exact Hk.
  - rewrite !(proj2 (lookup_ge_None _ _)); [reflexivity | |].
    + pose proof (length_slice fw p n). lia.
    + pose proof (length_slice fw' p n). lia.
Qed.

Lemma crc16_bit_range v : 0 <= crc16_bit v < 2 ^ 16.
Proof. unfold crc16_bit. destruct (negb _); apply u16_range. Qed.

Lemma crc16_fold_range bs : ∀ crc,
  0 <= crc < 2 ^ 16 → 0 <= crc16_fold crc bs < 2 ^ 16.
Proof.
  induction bs as [|b bs IH]; intros crc Hc; [exact Hc|].
  apply IH. apply crc16_bit_range.
Qed.

Lemma user_start len u :
  0x200 <= len < 2 ^ 63 → 0 <= u <= 1 →
  size_t (size_t (len - 0x200) + size_t (u * 0x100)) = len - 0x200 + u * 0x100.
Proof.
  intros Hl Hu. unfold size_t.
  rewrite (Z.mod_small (len - 0x200)), (Z.mod_small (u * 0x100)) by lia.
  apply Z.mod_small. lia.
Qed.

Lemma write_user_settings_runs len u fw :
  0x200 <= len < 2 ^ 63 → 0 <= u <= 1 → len <= Z.of_nat (length fw) →
  runs (write_user_settings len u) fw
    (λ _ fw',
       length fw' = length fw
       ∧ (∀ j, Forall (λ k, j ≠ len - 0x200 + u * 0x100 + k) user_offsets →
               byte_at fw' j = byte_at fw j)
       ∧ user_bytes u (len - 0x200 + u * 0x100) fw').
Proof.
  intros Hl Hu Hlen. unfold write_user_settings.
  rewrite user_start by lia. cbv zeta.
  repeat run_step.
  lazymatch goal with
  | |- context [Z.shiftr ?c 8] => set (crc := c)
  end.
  assert (Hcrc : 0 <= crc < 2 ^ 16) by (apply crc16_fold_range; lia).
  split; [bounds|]; split.
  - intros j Hj. unfold user_offsets in Hj. split_offsets Hj.
    bytes. reflexivity.
  - constructor; cbn [holds]; bytes.
    + reflexivity.
    + destruct (u =? 0); reflexivity.
    + repeat split; reflexivity.
    + repeat split; reflexivity.
    + exists crc. split.
      * rewrite crc16_slice by bounds. do 3 f_equal.
        apply slice_ext; [lia | lia | bounds | bounds |].
        intros k Hk. bytes. reflexivity.
      * unfold le16. bytes. cbv beta iota.
        rewrite !u8_land_FF, le16_bytes by exact Hcrc. reflexivity.
Qed.

(** ** The image as a whole *)

Lemma firmware_len_cases model :
  firmware_len model = 0x20000 ∨ firmware_len model = 0x40000
  ∨ firmware_len model = 0x80000.
Proof. unfold firmware_len. destruct (enumerator model) as [[]|]; auto. Qed.

Lemma header_bytes_frame model len old fw fw' :
  (∀ j, 0 <= j < 0x2A → byte_at fw' j = byte_at fw j) →
  header_bytes model len old fw → header_bytes model len old fw'.
Proof.
  intros Hf []. constructor; cbn [holds] in *; unfold le16 in *;
    rewrite !Hf by lia; assumption.
Qed.

Lemma user_bytes_frame u user fw fw' :
  0 <= user → user + 0x74 <= Z.of_nat (length fw) →
  length fw' = length fw →
  (∀ j, user <= j < user + 0x74 → byte_at fw' j = byte_at fw j) →
  user_bytes u user fw → user_bytes u user fw'.
Proof.
  intros Hu Hb Hlen Hf [? ? ? ? (crc & Hcrc & Hle)].
  constructor; cbn [holds] in *; try (rewrite !Hf by lia; assumption).
  exists crc. split.
  - rewrite crc16_slice in Hcrc |- * by lia.
    rewrite (slice_ext fw fw') by (auto with lia || (intros; apply Hf; lia)).
    congruence.
  - unfold le16 in *. rewrite !Hf by lia. assumption.
Qed.

Lemma user_offsets_apart (j user : Z) :
  ¬ (user <= j < user + 0x74) → Forall (λ k, j ≠ user + k) user_offsets.
Proof. intros Hj. unfold user_offsets. repeat constructor; lia. Qed.

Lemma default_firmware_image model :
  ∃ fw, default_firmware model = Some fw
        ∧ image model (firmware_len model) fw.
Proof.
  unfold default_firmware. cbv zeta.
  pose proof (firmware_len_cases model) as Hlen.
  set (len := firmware_len model) in *.
  assert (Hl : 0x20000 <= len <= 0x80000) by lia. clear Hlen.
  pose proof (length_replicate (Z.to_nat len) 0) as Hl0.
  set (fw0 := replicate (Z.to_nat len) 0) in *.
  cut (runs (write_header model len ;;;
             for_range 0 2 (λ u _, write_user_settings len u) tt)
         fw0 (λ _ fw, image model len fw)).
  { intros ([] & fw & -> & Himg). eauto. }
  apply runs_bind.
  eapply runs_mono; [apply write_header_runs; lia|].
  intros [] fw1 (Hl1 & Hf1 & Hh1).
  unfold for_range. change (Z.to_nat (2 - 0)) with 2%nat. cbn [for_].
  change (0 + 1) with 1.
  apply runs_bind.
  eapply runs_mono; [apply write_user_settings_runs; lia|].
  intros [] fw2 (Hl2 & Hf2 & Hu2).
  apply runs_bind.
  eapply runs_mono; [apply write_user_settings_runs; lia|].
  intros [] fw3 (Hl3 & Hf3 & Hu3).
  apply runs_ret.
  replace (len - 0x200 + 0 * 0x100) with (len - 0x200) in * by lia.
  replace (len - 0x200 + 1 * 0x100) with (len - 0x100) in * by lia.
  constructor.
  - lia.
  - apply header_bytes_frame with (fw := fw1).
    + intros j Hj.
      rewrite Hf3, Hf2 by (apply user_offsets_apart; lia). reflexivity.
    + unfold fw0 in Hh1. rewrite byte_at_replicate in Hh1 by lia. exact Hh1.
  - apply user_bytes_frame with (fw := fw2); [lia | lia | exact Hl3 | | exact Hu2].
    intros j Hj. apply Hf3, user_offsets_apart. lia.
  - exact Hu3.
  - intros j Hj Hh H0 H1.
    rewrite Hf3, Hf2, Hf1 by assumption.
    unfold fw0. apply byte_at_replicate. lia.
Qed.

(** ** Blocks of user settings as sequences of their own *)

Lemma firmware_len_range model : 0x20000 <= firmware_len model <= 0x80000.
Proof. pose proof (firmware_len_cases model). lia. Qed.

Lemma slice_slice fw p m q n :
  0 <= p → 0 <= q → 0 <= n → q + n <= m →
  slice (slice fw p m) q n = slice fw (p + q) n.
Proof.
  intros Hp Hq Hn Hm. unfold slice. apply list_eq. intros i.
  destruct (decide (i < Z.to_nat n)%nat) as [Hi | Hi].
  - rewrite !lookup_take_lt by lia. rewrite !lookup_drop.
    rewrite lookup_take_lt by lia. rewrite lookup_drop. f_equal. lia.
  - rewrite !lookup_take_ge by lia. reflexivity.
Qed.

Lemma holds_slice fw user n bs : ∀ k,
  0 <= user → 0 <= k → k + Z.of_nat (length bs) <= n →
  holds fw (user + k) bs → holds (slice fw user n) k bs.
Proof.
  induction bs as [|b bs IH]; intros k Hu Hk Hn; cbn [holds length] in *.
  - auto.
  - intros [Hb Hbs]. split.
    + rewrite byte_at_slice by lia. exact Hb.
    + apply IH; [lia | lia | lia |]. rewrite Z.add_assoc. exact Hbs.
Qed.

Lemma le16_intro fw i lo hi :
  byte_at fw i = Some lo → byte_at fw (i + 1) = Some hi →
  le16 fw i = Some (lo + 2 ^ 8 * hi).
Proof. intros Hlo Hhi. unfold le16. rewrite Hlo, Hhi. reflexivity. Qed.

(** A block whose checksum is right where it lies in the image is right
    as a sequence of its own. *)
Lemma crc_stored_slice fw user :
  0 <= user → user + 0x100 <= Z.of_nat (length fw) →
  (∃ crc, crc16 0xFFFF user 0x70 fw = Some (crc, fw)
          ∧ le16 fw (user + 0x72) = Some crc) →
  crc_stored (slice fw user 0x100).
Proof.
  intros Hu Hb (crc & Hcrc & Hle). exists crc.
  pose proof (length_slice fw user 0x100) as Hlen.
  rewrite crc16_slice in Hcrc |- * by lia.
  rewrite slice_slice by lia. replace (user + 0) with user by lia.
  split; [congruence|].
  unfold le16 in *. rewrite !byte_at_slice by lia.
  rewrite <- Z.add_assoc in Hle. exact Hle.
Qed.

Lemma user_fixed_slice u user fw :
  0 <= user → user_bytes u user fw →
  user_fixed (slice fw user 0x100)
  ∧ byte_at (slice fw user 0x100) 0x02 = Some (if u =? 0 then 1 else 0).
Proof.
  intros Hu [H0 H2 H3 H6 _]. unfold user_fixed.
  rewrite !byte_at_slice by lia.
  destruct H3 as (H3 & H4 & _). rewrite <- Z.add_assoc in H4.
  split; [|exact H2].
  split; [exact H0|]. split; [exact H3|]. split; [exact H4|].
  apply holds_slice; [lia | lia | cbn [length]; lia | exact H6].
Qed.

(** * The image against its specification *)

(** C1: in the image of every model, each of the two blocks of user
    settings (0x100 bytes from length - 0x200 and from length - 0x100)
    holds at 0x72..0x73, little-endian, the value of [crc16] for the seed
    0xFFFF and the first 0x70 bytes of the block. *)
Theorem user_settings_crc (m : Model) :
  ∃ fw, default_firmware m = Some fw
        ∧ let len := Z.of_nat (length fw) in
          crc_stored (slice fw (len - 0x200) 0x100)
          ∧ crc_stored (slice fw (len - 0x100) 0x100).
Proof.
  destruct (default_firmware_image m) as (fw & Hfw & Himg).
  exists fw. split; [exact Hfw|]. cbv zeta.
  pose proof (firmware_len_range m) as Hr.
  destruct Himg as [Hlen _ [_ _ _ _ Hc0] [_ _ _ _ Hc1] _].
  rewrite Hlen. split; apply crc_stored_slice; (lia || assumption).
Qed.

(** C2: the image [default_firmware] returns is 0x20000 bytes long for
    Dsi, 0x40000 for Ds and Lite, 0x80000 for Ique and IqueLite. *)
Theorem default_firmware_length (m : Model) :
  ∃ fw, default_firmware m = Some fw
        ∧ Z.of_nat (length fw) =
            match m with
            | Dsi => 0x20000
            | Ds | Lite => 0x40000
            | Ique | IqueLite => 0x80000
            end.
Proof.
  destruct (default_firmware_image m) as (fw & Hfw & Himg).
  exists fw. split; [exact Hfw|].
  rewrite (image_length _ _ _ Himg). destruct m; reflexivity.
Qed.

(** C3: for a 16-bit seed and any sequence of bytes, the empty one too,
    [crc16] returns what the reference computation of the specification
    returns: from the seed on, each byte is XORed into the low byte of
    the running value, which is then, 8 times, shifted right by one bit
    and, if its low bit was set, XORed with 0xA001.  On the empty sequence
    the seed 0xFFFF comes back. *)
Theorem crc16_refines_reference (seed : Z) (data : list Z) :
  0 <= seed < 2 ^ 16 →
  Forall (λ b, 0 <= b < 2 ^ 8) data →
  crc16 seed 0 (Z.of_nat (length data)) data
    = Some (crc16_ref seed data, data)
  ∧ crc16 0xFFFF 0 0 [] = Some (0xFFFF, []).
Proof.
  intros Hseed Hdata. split; [|reflexivity].
  rewrite crc16_slice by lia.
  unfold slice. rewrite Nat2Z.id. change (Z.to_nat 0) with 0%nat.
  rewrite drop_0, firstn_all.
  destruct (crc16_fold_ref data seed Hseed Hdata) as [-> _]. reflexivity.
Qed.

Lemma crc16_refines_reference_witness :
  let data := map chr ["1"; "2"; "3"; "4"; "5"; "6"; "7"; "8"; "9"]%char in
  (0 <= 0xFFFF < 2 ^ 16 ∧ Forall (λ b, 0 <= b < 2 ^ 8) data)
  ∧ crc16 0xFFFF 0 9 data = Some (crc16_ref 0xFFFF data, data)
  ∧ crc16_ref 0xFFFF data = 0x4B37.
Proof.
  cbv zeta.
  assert (Hseed : 0 <= 0xFFFF < 2 ^ 16) by lia.
  assert (Hdata : Forall (λ b, 0 <= b < 2 ^ 8)
                    (map chr ["1"; "2"; "3"; "4"; "5"; "6"; "7"; "8"; "9"]%char)).
  { repeat constructor; vm_compute; discriminate. }
  split; [split; assumption|].
  split; [|reflexivity].
  exact (proj1 (crc16_refines_reference 0xFFFF _ Hseed Hdata)).
Defined.

(** C4, as the code has it: the image for Ds is 0x40000 bytes long, its
    byte at 0x14 is 0x00 and its byte at 0x15 is 0x20; the two are the
    little-endian bytes of (length >> 17) << 12 cut to 16 bits, which is
    0x2000. *)
Theorem default_firmware_Ds_val14 :
  ∃ fw, default_firmware Ds = Some fw
        ∧ Z.of_nat (length fw) = 0x40000
        ∧ byte_at fw 0x14 = Some 0x00
        ∧ byte_at fw 0x15 = Some 0x20
        ∧ le16 fw 0x14 = Some (Z.shiftl (Z.shiftr 0x40000 17) 12 mod 2 ^ 16)
        ∧ Z.shiftl (Z.shiftr 0x40000 17) 12 mod 2 ^ 16 = 0x2000.
Proof.
  destruct (default_firmware_image Ds) as (fw & Hfw & Himg).
  exists fw. split; [exact Hfw|].
  destruct Himg as [Hlen [_ _ H14 _ _ _ _ _ _ _ _] _ _ _].
  destruct H14 as (H14 & H15 & _).
  split; [exact Hlen|]. split; [exact H14|]. split; [exact H15|].
  split; [|reflexivity].
  rewrite (le16_intro _ _ _ _ H14 H15). reflexivity.
Qed.

(** C4, as the claim has it, fails: the byte at 0x15 of the image for Ds
    is not 0x00. *)
Lemma default_firmware_Ds_byte_15_not_zero :
  ∃ fw, default_firmware Ds = Some fw ∧ byte_at fw 0x15 ≠ Some 0x00.
Proof.
  destruct (default_firmware_image Ds) as (fw & Hfw & Himg).
  exists fw. split; [exact Hfw|].
  destruct Himg as [_ [_ _ H14 _ _ _ _ _ _ _ _] _ _ _].
  destruct H14 as (_ & H15 & _).
  change (0x14 + 1) with 0x15 in H15. rewrite H15. discriminate.
Qed.

(** C5: the bytes at 0x20..0x29 of the image hold, little-endian and in
    this order, (length - 0x200) >> 3 cut to 16 bits, 0x0B51, 0x0DB3,
    0x4F5D and 0xFFFF, where length is the length of the image. *)
Theorem default_firmware_values (m : Model) :
  ∃ fw, default_firmware m = Some fw
        ∧ let len := Z.of_nat (length fw) in
          le16 fw 0x20 = Some (Z.shiftr (len - 0x200) 3 mod 2 ^ 16)
          ∧ le16 fw 0x22 = Some 0x0B51
          ∧ le16 fw 0x24 = Some 0x0DB3
          ∧ le16 fw 0x26 = Some 0x4F5D
          ∧ le16 fw 0x28 = Some 0xFFFF.
Proof.
  destruct (default_firmware_image m) as (fw & Hfw & Himg).
  exists fw. split; [exact Hfw|]. cbv zeta.
  destruct Himg as [Hlen [] _ _ _]. rewrite Hlen.
  repeat split; try assumption.
  destruct m; assumption.
Qed.

(** C6: the byte at 0x1D of the image is 0xFF for Ds, 0x20 for Lite, 0x57
    for Ique, 0x43 for IqueLite and 0x63 for Dsi. *)
Theorem default_firmware_byte_1D (m : Model) :
  ∃ fw, default_firmware m = Some fw
        ∧ byte_at fw 0x1D =
            Some match m with
                 | Ds => 0xFF
                 | Lite => 0x20
                 | Ique => 0x57
                 | IqueLite => 0x43
                 | Dsi => 0x63
                 end.
Proof.
  destruct (default_firmware_image m) as (fw & Hfw & Himg).
  exists fw. split; [exact Hfw|].
  rewrite (header_1D _ _ _ _ (image_header _ _ _ Himg)).
  destruct m; reflexivity.
Qed.

(** C7: in the image of every model, both blocks of user settings hold 5
    at 0x00, 1 at 0x03 and at 0x04, and the name "Dust" at 0x06..0x0D,
    each character followed by 0x00; the byte at 0x02 is 1 in the block
    at length - 0x200 and 0 in the block at length - 0x100. *)
Theorem user_settings_fixed_bytes (m : Model) :
  ∃ fw, default_firmware m = Some fw
        ∧ let len := Z.of_nat (length fw) in
          let block0 := slice fw (len - 0x200) 0x100 in
          let block1 := slice fw (len - 0x100) 0x100 in
          user_fixed block0 ∧ user_fixed block1
          ∧ byte_at block0 0x02 = Some 1 ∧ byte_at block1 0x02 = Some 0.
Proof.
  destruct (default_firmware_image m) as (fw & Hfw & Himg).
  exists fw. split; [exact Hfw|]. cbv zeta.
  pose proof (firmware_len_range m) as Hr.
  destruct Himg as [Hlen _ Hu0 Hu1 _]. rewrite Hlen.
  apply user_fixed_slice in Hu0 as [Hf0 Hb0]; [|lia].
  apply user_fixed_slice in Hu1 as [Hf1 Hb1]; [|lia].
  auto.
Qed.

(** C8: [default_firmware] returns an image for every value a [Model]
    can hold, and for a value that is none of the enumerators the image
    is 0x40000 bytes long. *)
Theorem default_firmware_total (model : Z) :
  ∃ fw, default_firmware model = Some fw
        ∧ ((∀ m : Model, model ≠ m) → Z.of_nat (length fw) = 0x40000).
Proof.
  destruct (default_firmware_image model) as (fw & Hfw & Himg).
  exists fw. split; [exact Hfw|]. intros Hm.
  rewrite (image_length _ _ _ Himg).
  unfold firmware_len, enumerator.
  repeat match goal with
         | |- context [model =? Model_value ?m] =>
             destruct (Z.eqb_spec model m) as [He | _];
             [destruct (Hm m He)|]
         end.
  reflexivity.
Qed.

Lemma default_firmware_total_witness :
  ∃ fw, default_firmware 7 = Some fw ∧ Z.of_nat (length fw) = 0x40000.
Proof.
  destruct (default_firmware_total 7) as (fw & Hfw & Hlen).
  exists fw. split; [exact Hfw|].
  apply Hlen. intros []; discriminate.
Defined.

(** C9: no access of [default_firmware] leaves the vector.  The run as a
    whole returns; the header fields are written below 0x2A, which the
    vector is longer than; both blocks of user settings, and the 0x70
    bytes of each that [crc16] reads, lie inside the vector. *)
Theorem default_firmware_in_bounds (m : Model) :
  let len := firmware_len m in
  is_Some (default_firmware m)
  ∧ (∀ fw, Z.of_nat (length fw) = 0x2A → is_Some (write_header m len fw))
  ∧ 0x2A <= len
  ∧ 0 <= len - 0x200
  ∧ len - 0x100 + 0x100 <= len
  ∧ Forall
      (λ u,
         let user := size_t (size_t (len - 0x200) + size_t (u * 0x100)) in
         user = len - 0x200 + u * 0x100
         ∧ 0 <= user
         ∧ user + 0x70 <= user + 0x100 <= len
         ∧ ∀ fw, Z.of_nat (length fw) = len →
                 is_Some (write_user_settings len u fw)
                 ∧ is_Some (crc16 0xFFFF user 0x70 fw))
      [0; 1].
Proof.
  cbv zeta. pose proof (firmware_len_range m) as Hr.
  split.
  { destruct (default_firmware_image m) as (fw & -> & _). eauto. }
  split.
  { intros fw Hfw.
    destruct (write_header_runs m (firmware_len m) fw) as (a & fw' & -> & _);
      [lia | eauto]. }
  do 3 (split; [lia|]).
  assert (Hu : ∀ u, 0 <= u <= 1 →
    let user :=
      size_t (size_t (firmware_len m - 0x200) + size_t (u * 0x100)) in
    user = firmware_len m - 0x200 + u * 0x100
    ∧ 0 <= user
    ∧ user + 0x70 <= user + 0x100 <= firmware_len m
    ∧ ∀ fw, Z.of_nat (length fw) = firmware_len m →
            is_Some (write_user_settings (firmware_len m) u fw)
            ∧ is_Some (crc16 0xFFFF user 0x70 fw)).
  { intros u Hu. cbv zeta. rewrite user_start by lia.
    split; [reflexivity|]. split; [lia|]. split; [lia|].
    intros fw Hfw. split.
    - destruct (write_user_settings_runs (firmware_len m) u fw)
        as (a & fw' & -> & _); [lia | lia | lia | eauto].
    - rewrite crc16_slice by lia. eauto. }
  repeat constructor; apply Hu; lia.
Qed.

(** C10: in the image of every model the two blocks of user settings
    hold the same byte at every offset of [0, 0x100) other than 0x02,
    0x72 and 0x73; at 0x02 the first holds 1 and the second 0. *)
Theorem user_settings_blocks_agree (m : Model) :
  ∃ fw, default_firmware m = Some fw
        ∧ let len := Z.of_nat (length fw) in
          let block0 := slice fw (len - 0x200) 0x100 in
          let block1 := slice fw (len - 0x100) 0x100 in
          (∀ k, 0 <= k < 0x100 → k ≠ 0x02 → k ≠ 0x72 → k ≠ 0x73 →
                ∃ b, byte_at block0 k = Some b ∧ byte_at block1 k = Some b)
          ∧ byte_at block0 0x02 = Some 1
          ∧ byte_at block1 0x02 = Some 0.
Proof.
  destruct (default_firmware_image m) as (fw & Hfw & Himg).
  exists fw. split; [exact Hfw|]. cbv zeta.
  pose proof (firmware_len_range m) as Hr.
  destruct Himg as [Hlen _ Hu0 Hu1 Hz]. rewrite Hlen.
  set (len := firmware_len m) in *.
  apply user_fixed_slice in Hu0 as [(A0 & A3 & A4 & A6) A2]; [|lia].
  apply user_fixed_slice in Hu1 as [(B0 & B3 & B4 & B6) B2]; [|lia].
  split; [|split; assumption].
  intros k Hk H02 H72 H73.
  cbn [holds] in A6, B6.
  destruct A6 as (A6 & A7 & A8 & A9 & A10 & A11 & A12 & A13 & _).
  destruct B6 as (B6 & B7 & B8 & B9 & B10 & B11 & B12 & B13 & _).
  assert (Hin : k = 0 ∨ k = 3 ∨ k = 4 ∨ k = 6 ∨ k = 6 + 1 ∨ k = 6 + 1 + 1
                ∨ k = 6 + 1 + 1 + 1 ∨ k = 6 + 1 + 1 + 1 + 1
                ∨ k = 6 + 1 + 1 + 1 + 1 + 1 ∨ k = 6 + 1 + 1 + 1 + 1 + 1 + 1
                ∨ k = 6 + 1 + 1 + 1 + 1 + 1 + 1 + 1
                ∨ ¬ (k ≠ 1 ∧ k ≠ 5 ∧ k < 14)) by lia.
  repeat (destruct Hin as [-> | Hin]; [eauto|]).
  exists 0. rewrite !byte_at_slice by lia.
  split; apply Hz; try lia;
    unfold header_offsets, user_offsets; repeat constructor; lia.
Qed.

(** * Further properties of crc16 *)

Lemma for_app {S} n1 n2 (body : Z → S → M S) : ∀ i s fw,
  for_ (n1 + n2) i body s fw
  = (s' <~ for_ n1 i body s ;; for_ n2 (i + Z.of_nat n1) body s') fw.
Proof.
  induction n1 as [|n1 IH]; intros i s fw.
  - cbn [for_ Nat.add]. unfold bind, ret. change (Z.of_nat 0) with 0.
    rewrite Z.add_0_r. reflexivity.
  - cbn [for_ Nat.add]. unfold bind.
    destruct (body i s fw) as [[s' fw']|]; [|reflexivity].
    rewrite IH. unfold bind.
    replace (i + 1 + Z.of_nat n1) with (i + Z.of_nat (Datatypes.S n1)) by lia.
    reflexivity.
Qed.

Lemma for_shift {S} d (body body' : Z → S → M S) n : ∀ i s fw,
  (∀ j s fw, body (j + d) s fw = body' j s fw) →
  for_ n (i + d) body s fw = for_ n i body' s fw.
Proof.
  induction n as [|n IH]; intros i s fw Hb; [reflexivity|].
  cbn [for_]. unfold bind. rewrite Hb.
  destruct (body' i s fw) as [[s' fw']|]; [|reflexivity].
  replace (i + d + 1) with (i + 1 + d) by lia. apply IH, Hb.
Qed.

(** X1: the checksum of a range can be computed in two calls, the second
    seeded with the result of the first. *)
Theorem crc16_chunks (crc data n1 n2 : Z) (fw : list Z) :
  0 <= n1 → 0 <= n2 →
  crc16 crc data (n1 + n2) fw
  = (c <~ crc16 crc data n1 ;; crc16 c (data + n1) n2) fw.
Proof.
  intros H1 H2. unfold crc16, for_range.
  replace (Z.to_nat (n1 + n2 - 0)) with (Z.to_nat n1 + Z.to_nat n2)%nat by lia.
  rewrite for_app. replace (n1 - 0) with n1 by lia.
  replace (n2 - 0) with n2 by lia.
  unfold bind at 1 4.
  match goal with
  | |- match ?x with _ => _ end = _ => destruct x as [[c fw']|]
  end; [|reflexivity].
  rewrite Z2Nat.id by lia. apply for_shift.
  intros j s fw''. replace (data + (j + n1)) with (data + n1 + j) by lia.
  reflexivity.
Qed.

Lemma crc16_chunks_witness :
  (0 <= 4 ∧ 0 <= 5)
  ∧ crc16 0xFFFF 0 (4 + 5) [0x31; 0x32; 0x33; 0x34; 0x35; 0x36; 0x37; 0x38; 0x39]
    = (c <~ crc16 0xFFFF 0 4 ;; crc16 c (0 + 4) 5)
        [0x31; 0x32; 0x33; 0x34; 0x35; 0x36; 0x37; 0x38; 0x39].
Proof.
  split; [lia|]. apply crc16_chunks; lia.
Defined.

Lemma for_state {S} (body : Z → S → M S) n : ∀ i s fw a fw',
  (∀ i s fw a fw', body i s fw = Some (a, fw') → fw' = fw) →
  for_ n i body s fw = Some (a, fw') → fw' = fw.
Proof.
  induction n as [|n IH]; intros i s fw a fw' Hb; cbn [for_].
  - unfold ret. congruence.
  - unfold bind. destruct (body i s fw) as [[s1 fw1]|] eqn:H1; [|discriminate].
    apply Hb in H1 as ->. apply IH, Hb.
Qed.

Lemma crc16_state crc data len fw c fw' :
  crc16 crc data len fw = Some (c, fw') → fw' = fw.
Proof.
  unfold crc16, for_range. apply for_state.
  clear. intros i s fw a fw'. unfold bind, load.
  destruct (in_bounds fw (data + i)); [|discriminate].
  destruct (fw !! Z.to_nat (data + i)) as [b|]; [|discriminate].
  intros H.
  change (Some (Nat.iter 8 crc16_bit (u16 (Z.lxor s b)), fw) = Some (a, fw'))
    in H.
  congruence.
Qed.

Lemma crc16_first_load crc data len fw :
  0 < len → in_bounds fw data = false → crc16 crc data len fw = None.
Proof.
  intros Hl Hb. unfold crc16, for_range.
  destruct (Z.to_nat (len - 0)) as [|n] eqn:Hn; [lia|].
  cbn [for_]. unfold bind at 1. unfold bind at 1, load.
  rewrite Z.add_0_r, Hb. reflexivity.
Qed.

(** X2: [crc16] returns exactly when the range it is given is empty or
    lies inside the vector; it then leaves the vector as it is, and for a
    16-bit seed its result is a 16-bit value. *)
Theorem crc16_returns (crc data len : Z) (fw : list Z) :
  0 <= crc < 2 ^ 16 → 0 <= len →
  (is_Some (crc16 crc data len fw)
   ↔ len = 0 ∨ (0 <= data ∧ data + len <= Z.of_nat (length fw)))
  ∧ ∀ c fw', crc16 crc data len fw = Some (c, fw') →
             fw' = fw ∧ 0 <= c < 2 ^ 16.
Proof.
  intros Hc Hl.
  assert (Hin : 0 <= data → data + len <= Z.of_nat (length fw) →
                crc16 crc data len fw
                = Some (crc16_fold crc (slice fw data len), fw)).
  { intros. apply crc16_slice; lia. }
  assert (Hout : 0 < len →
                 ¬ (0 <= data ∧ data + len <= Z.of_nat (length fw)) →
                 crc16 crc data len fw = None).
  { intros Hpos Hno.
    destruct (in_bounds fw data) eqn:Hb; [|apply crc16_first_load; assumption].
    apply andb_true_iff in Hb as [Hb1 Hb2].
    apply Z.leb_le in Hb1. apply Z.ltb_lt in Hb2.
    set (n1 := Z.of_nat (length fw) - data).
    replace len with (n1 + (len - n1)) by lia.
    rewrite crc16_chunks by (unfold n1; lia).
    unfold bind. rewrite crc16_slice by (unfold n1; lia).
    apply crc16_first_load; [unfold n1; lia|].
    unfold in_bounds. apply andb_false_iff. right. apply Z.ltb_ge.
    unfold n1. lia. }
  split.
  - split.
    + intros Hsome.
      destruct (decide (len = 0)) as [|Hne]; [auto|]. right.
      destruct (decide (0 <= data ∧ data + len <= Z.of_nat (length fw)))
        as [|Hno]; [assumption|].
      rewrite Hout in Hsome by (assumption || lia).
      destruct Hsome as [? ?]. discriminate.
    + intros [-> | [Hd Hb]]; [eauto | rewrite Hin by lia; eauto].
  - intros c fw' Hrun. split; [eapply crc16_state, Hrun|].
    destruct (decide (len = 0)) as [-> | Hne].
    + injection Hrun as <- _. exact Hc.
    + destruct (decide (0 <= data ∧ data + len <= Z.of_nat (length fw)))
        as [[Hd Hb] | Hno].
      * rewrite Hin in Hrun by lia. injection Hrun as <- _.
        apply crc16_fold_range, Hc.
      * rewrite Hout in Hrun by (assumption || lia). discriminate.
Qed.

Lemma crc16_returns_witness :
  (0 <= 0xFFFF < 2 ^ 16 ∧ 0 <= 3)
  ∧ (is_Some (crc16 0xFFFF 1 3 [7; 8; 9])
     ↔ 3 = 0 ∨ (0 <= 1 ∧ 1 + 3 <= Z.of_nat (length [7; 8; 9])))
  ∧ crc16 0xFFFF 1 3 [7; 8; 9] = None.
Proof.
  split; [lia|]. split; [|reflexivity].
  apply (crc16_returns 0xFFFF 1 3 [7; 8; 9]); lia.
Defined.

(** X3: a byte stored outside the range [crc16] is given does not change
    its result: storing and then computing the checksum is computing the
    checksum and then storing. *)
Theorem crc16_store_outside (crc data len i v : Z) (fw : list Z) :
  0 <= data → 0 <= len → data + len <= Z.of_nat (length fw) →
  0 <= i < Z.of_nat (length fw) → ¬ (data <= i < data + len) →
  (store i v ;;; crc16 crc data len) fw
  = (c <~ crc16 crc data len ;; store i v ;;; ret c) fw.
Proof.
  intros Hd Hl Hb Hi Hout. unfold bind, store.
  rewrite in_bounds_true by lia.
  rewrite !crc16_slice by (rewrite ?length_insert; lia).
  rewrite in_bounds_true by lia. unfold ret. do 3 f_equal.
  apply slice_ext; [lia | lia | lia | apply length_insert |].
  intros k Hk. apply byte_at_insert_ne; lia.
Qed.

Lemma crc16_store_outside_witness :
  (0 <= 1 ∧ 0 <= 2 ∧ 1 + 2 <= Z.of_nat (length [1; 2; 3; 4])
   ∧ 0 <= 3 < Z.of_nat (length [1; 2; 3; 4]) ∧ ¬ (1 <= 3 < 1 + 2))
  ∧ (store 3 0xAB ;;; crc16 0xFFFF 1 2) [1; 2; 3; 4]
    = (c <~ crc16 0xFFFF 1 2 ;; store 3 0xAB ;;; ret c) [1; 2; 3; 4].
Proof.
  assert (H : 0 <= 1 ∧ 0 <= 2 ∧ 1 + 2 <= Z.of_nat (length [1; 2; 3; 4])
              ∧ 0 <= 3 < Z.of_nat (length [1; 2; 3; 4]) ∧ ¬ (1 <= 3 < 1 + 2)).
  { cbn [length]. lia. }
  split; [exact H|].
  destruct H as (H1 & H2 & H3 & H4 & H5).
  exact (crc16_store_outside 0xFFFF 1 2 3 0xAB [1; 2; 3; 4] H1 H2 H3 H4 H5).
Defined.

Lemma lxor_cancel_r a b k : Z.lxor a k = Z.lxor b k → a = b.
Proof.
  intros H. apply (f_equal (λ t, Z.lxor t k)) in H.
  rewrite !Z.lxor_assoc, !Z.lxor_nilpotent, !Z.lxor_0_r in H. exact H.
Qed.

Lemma lxor_cancel_l a b k : Z.lxor k a = Z.lxor k b → a = b.
Proof. rewrite !(Z.lxor_comm k). apply lxor_cancel_r. Qed.

Lemma shiftr_1_inj x y :
  Z.testbit x 0 = Z.testbit y 0 → Z.shiftr x 1 = Z.shiftr y 1 → x = y.
Proof.
  intros H0 Hs. apply Z.bits_inj'. intros n Hn.
  destruct (decide (n = 0)) as [-> | Hne]; [exact H0|].
  replace n with (n - 1 + 1) by lia.
  rewrite <- !Z.shiftr_spec by lia. rewrite Hs. reflexivity.
Qed.

Lemma crc16_ref_shift_top v :
  0 <= v < 2 ^ 16 → Z.testbit (crc16_ref_shift v) 15 = Z.testbit v 0.
Proof.
  intros Hv. unfold crc16_ref_shift.
  assert (Hs : Z.testbit (Z.shiftr v 1) 15 = false).
  { rewrite Z.shiftr_spec by lia. apply (testbit_high v 16); lia. }
  destruct (Z.testbit v 0); [|exact Hs].
  rewrite Z.lxor_spec, Hs. reflexivity.
Qed.

Lemma crc16_bit_inj x y :
  0 <= x < 2 ^ 16 → 0 <= y < 2 ^ 16 → crc16_bit x = crc16_bit y → x = y.
Proof.
  intros Hx Hy.
  destruct (crc16_bit_ref x Hx) as [-> _].
  destruct (crc16_bit_ref y Hy) as [-> _]. intros He.
  assert (H0 : Z.testbit x 0 = Z.testbit y 0).
  { rewrite <- !crc16_ref_shift_top by assumption. rewrite He. reflexivity. }
  apply shiftr_1_inj; [exact H0|].
  unfold crc16_ref_shift in He. rewrite <- H0 in He.
  destruct (Z.testbit x 0); [eapply lxor_cancel_r|]; exact He.
Qed.

Lemma crc16_bits_inj n : ∀ x y,
  0 <= x < 2 ^ 16 → 0 <= y < 2 ^ 16 →
  Nat.iter n crc16_bit x = Nat.iter n crc16_bit y → x = y.
Proof.
  induction n as [|n IH]; intros x y Hx Hy He; [exact He|].
  cbn [Nat.iter] in He. apply crc16_bit_inj in He.
  - apply IH; assumption.
  - destruct n; [exact Hx | apply crc16_bit_range].
  - destruct n; [exact Hy | apply crc16_bit_range].
Qed.

Lemma u16_lxor c b : 0 <= c < 2 ^ 16 → u16 (Z.lxor c b) = Z.lxor c (u16 b).
Proof.
  intros Hc. unfold u16. rewrite <- lxor_mod_pow2 by lia.
  rewrite (Z.mod_small c) by lia. reflexivity.
Qed.

(** One turn of the outer loop is one-to-one in the running value ... *)
Lemma crc16_step_inj_crc b c1 c2 :
  0 <= c1 < 2 ^ 16 → 0 <= c2 < 2 ^ 16 →
  Nat.iter 8 crc16_bit (u16 (Z.lxor c1 b))
  = Nat.iter 8 crc16_bit (u16 (Z.lxor c2 b)) →
  c1 = c2.
Proof.
  intros H1 H2 He. apply crc16_bits_inj in He; try apply u16_range.
  rewrite !u16_lxor in He by assumption. eapply lxor_cancel_r, He.
Qed.

(** ... and in the byte read. *)
Lemma crc16_step_inj_byte c b1 b2 :
  0 <= c < 2 ^ 16 → 0 <= b1 < 2 ^ 8 → 0 <= b2 < 2 ^ 8 →
  Nat.iter 8 crc16_bit (u16 (Z.lxor c b1))
  = Nat.iter 8 crc16_bit (u16 (Z.lxor c b2)) →
  b1 = b2.
Proof.
  intros Hc H1 H2 He. apply crc16_bits_inj in He; try apply u16_range.
  rewrite !u16_lxor in He by assumption. apply lxor_cancel_l in He.
  unfold u16 in He. rewrite !Z.mod_small in He by lia. exact He.
Qed.

Lemma crc16_fold_inj bs : ∀ c1 c2,
  0 <= c1 < 2 ^ 16 → 0 <= c2 < 2 ^ 16 →
  crc16_fold c1 bs = crc16_fold c2 bs → c1 = c2.
Proof.
  induction bs as [|b bs IH]; intros c1 c2 H1 H2 He; [exact He|].
  unfold crc16_fold in He. cbn [fold_left] in He.
  apply IH in He; [| apply crc16_bits_ref, u16_range..].
  eapply crc16_step_inj_crc; eassumption.
Qed.

Lemma slice_insert_inside fw p n i x :
  0 <= p → p <= i < p + n → p + n <= Z.of_nat (length fw) →
  slice (<[Z.to_nat i := x]> fw) p n
  = <[Z.to_nat (i - p) := x]> (slice fw p n).
Proof.
  intros Hp Hi Hb. unfold slice.
  rewrite drop_insert_ge by lia. rewrite take_insert_lt by lia.
  do 2 f_equal. lia.
Qed.

(** X4: [crc16] tells any change of one byte of its range: after a byte
    of the range is overwritten with a different value, the checksum of
    the range is another one. *)
Theorem crc16_detects_one_byte (crc data len i v b : Z) (fw : list Z) :
  0 <= crc < 2 ^ 16 →
  0 <= data → data + len <= Z.of_nat (length fw) →
  data <= i < data + len →
  byte_at fw i = Some b → 0 <= b < 2 ^ 8 → u8 v ≠ b →
  ∃ c c' fw',
    crc16 crc data len fw = Some (c, fw)
    ∧ (store i v ;;; crc16 crc data len) fw = Some (c', fw')
    ∧ c ≠ c'.
Proof.
  intros Hc Hd Hb Hi Hbyte Hrange Hne.
  exists (crc16_fold crc (slice fw data len)).
  exists (crc16_fold crc (slice (<[Z.to_nat i := u8 v]> fw) data len)).
  exists (<[Z.to_nat i := u8 v]> fw).
  split; [apply crc16_slice; lia|]. split.
  { unfold bind, store. rewrite in_bounds_true by lia.
    apply crc16_slice; rewrite ?length_insert; lia. }
  rewrite slice_insert_inside by lia.
  pose proof (length_slice fw data len) as Hlen.
  assert (Hk : slice fw data len !! Z.to_nat (i - data) = Some b).
  { unfold slice. rewrite lookup_take_lt by lia. rewrite lookup_drop.
    rewrite byte_at_lookup in Hbyte by lia. rewrite <- Hbyte. f_equal. lia. }
  set (l := slice fw data len) in *. set (k := Z.to_nat (i - data)) in *.
  rewrite insert_take_drop by lia.
  rewrite <- (take_drop_middle l k b Hk) at 1.
  unfold crc16_fold. rewrite !fold_left_app. cbn [fold_left].
  intros He. apply crc16_fold_inj in He; [| apply crc16_bits_ref, u16_range..].
  apply crc16_step_inj_byte in He.
  - congruence.
  - apply crc16_fold_range, Hc.
  - exact Hrange.
  - apply Z.mod_pos_bound. lia.
Qed.

Lemma crc16_detects_one_byte_witness :
  ∃ c c' fw',
    crc16 0xFFFF 0 3 [1; 2; 3] = Some (c, [1; 2; 3])
    ∧ (store 1 7 ;;; crc16 0xFFFF 0 3) [1; 2; 3] = Some (c', fw')
    ∧ c ≠ c'.
Proof.
  apply (crc16_detects_one_byte 0xFFFF 0 3 1 7 2 [1; 2; 3]);
    first [reflexivity | cbn [length]; lia | discriminate].
Defined.

(** * Further properties of the image *)

(** ** The vector holds bytes *)

Lemma keeps_ret {A} P (a : A) : keeps P (ret a).
Proof. intros fw a' fw' HP H. injection H as _ <-. exact HP. Qed.

Lemma keeps_bind {A B} P (m : M A) (k : A → M B) :
  keeps P m → (∀ a, keeps P (k a)) → keeps P (bind m k).
Proof.
  intros Hm Hk fw b fw' HP. unfold bind.
  destruct (m fw) as [[a fw1]|] eqn:H1; [|discriminate].
  apply Hk. eapply Hm; eassumption.
Qed.

Lemma keeps_local {A} P (o : option A) : keeps P (local o).
Proof.
  intros fw a fw' HP. unfold local. destruct o; [|discriminate].
  intros H. injection H as _ <-. exact HP.
Qed.

Lemma keeps_load P i : keeps P (load i).
Proof.
  intros fw a fw' HP. unfold load.
  destruct (in_bounds fw i); [|discriminate].
  destruct (fw !! Z.to_nat i); [|discriminate].
  intros H. injection H as _ <-. exact HP.
Qed.

Lemma keeps_store i v : keeps all_bytes (store i v).
Proof.
  intros fw a fw' HP. unfold store.
  destruct (in_bounds fw i); [|discriminate].
  intros [= _ <-]. apply Forall_insert; [exact HP|].
  apply Z.mod_pos_bound. lia.
Qed.

Lemma keeps_for {S} P (body : Z → S → M S) n : ∀ i s,
  (∀ i s, keeps P (body i s)) → keeps P (for_ n i body s).
Proof.
  induction n as [|n IH]; intros i s Hb; cbn [for_].
  - apply keeps_ret.
  - apply keeps_bind; [apply Hb|]. intros s'. apply IH, Hb.
Qed.

Lemma keeps_copy arr : ∀ dst, keeps all_bytes (copy arr dst).
Proof.
  induction arr as [|x arr IH]; intros dst; cbn [copy].
  - apply keeps_ret.
  - apply keeps_bind; [apply keeps_store|]. intros _. apply IH.
Qed.

Lemma keeps_crc16 P crc data len : keeps P (crc16 crc data len).
Proof. intros fw c fw' HP H. apply crc16_state in H as ->. exact HP. Qed.

Ltac keeps_step :=
  lazymatch goal with
  | |- keeps _ (crc16 _ _ _) => apply keeps_crc16
  | |- keeps _ (for_ _ _ _ _) => apply keeps_for; intros ? ?
  | |- keeps _ (copy _ _) => apply keeps_copy
  | |- keeps _ (store _ _) => apply keeps_store
  | |- keeps _ (ret _) => apply keeps_ret
  | |- keeps _ (local _) => apply keeps_local
  | |- keeps _ (bind _ _) => apply keeps_bind; [|intros ?]
  end.

Lemma keeps_write_header model len : keeps all_bytes (write_header model len).
Proof.
  unfold write_header, for_range, index. cbv zeta.
  destruct (enumerator model) as [[]|]; repeat keeps_step.
Qed.

Lemma keeps_write_user_settings len u :
  keeps all_bytes (write_user_settings len u).
Proof.
  unfold write_user_settings, for_range, char_at. cbv zeta.
  repeat keeps_step.
Qed.

Lemma default_firmware_all_bytes model fw :
  default_firmware model = Some fw → all_bytes fw.
Proof.
  unfold default_firmware. cbv zeta.
  destruct (bind _ _ _) as [[[] fw']|] eqn:Hrun; [|discriminate].
  intros [= <-]. revert Hrun.
  apply keeps_bind.
  - apply keeps_write_header.
  - intros _. unfold for_range. apply keeps_for.
    intros u _. apply keeps_write_user_settings.
  - apply Forall_replicate. lia.
Qed.

(** ** The bytes of the image *)

Lemma holds_slice_eq fw bs : ∀ p,
  holds fw p bs → 0 <= p → slice fw p (Z.of_nat (length bs)) = bs.
Proof.
  unfold slice. induction bs as [|b bs IH]; intros p Hh Hp.
  - reflexivity.
  - destruct Hh as [Hb Hh]. rewrite byte_at_lookup in Hb by lia.
    rewrite (drop_S _ _ _ Hb), Nat2Z.id. cbn [length take]. f_equal.
    specialize (IH (p + 1) Hh ltac:(lia)).
    rewrite Nat2Z.id in IH.
    replace (Z.to_nat (p + 1)) with (S (Z.to_nat p)) in IH by lia. exact IH.
Qed.

Lemma all_bytes_byte_at fw i b :
  all_bytes fw → byte_at fw i = Some b → 0 <= b < 2 ^ 8.
Proof.
  intros Hfw Hb. unfold byte_at in Hb. destruct (0 <=? i); [|discriminate].
  exact (proj1 (Forall_lookup _ _) Hfw _ _ Hb).
Qed.

Lemma le16_split fw i v :
  all_bytes fw → 0 <= v < 2 ^ 16 → le16 fw i = Some v →
  holds fw i [Z.land v 0xFF; Z.land (Z.shiftr v 8) 0xFF].
Proof.
  intros Hfw Hv. unfold le16.
  destruct (byte_at fw i) as [lo|] eqn:Hlo; [|discriminate].
  destruct (byte_at fw (i + 1)) as [hi|] eqn:Hhi; [|discriminate].
  intros [= He].
  pose proof (all_bytes_byte_at _ _ _ Hfw Hlo).
  pose proof (all_bytes_byte_at _ _ _ Hfw Hhi).
  pose proof (le16_bytes v Hv) as Hs.
  assert (0 <= Z.land v 0xFF < 2 ^ 8).
  { change 0xFF with (Z.ones 8). rewrite Z.land_ones by lia.
    apply Z.mod_pos_bound. lia. }
  assert (0 <= Z.land (Z.shiftr v 8) 0xFF < 2 ^ 8).
  { change 0xFF with (Z.ones 8). rewrite Z.land_ones by lia.
    apply Z.mod_pos_bound. lia. }
  cbn [holds]. rewrite Hlo, Hhi.
  split; [f_equal; lia|]. split; [f_equal; lia | exact I].
Qed.

Lemma image_zero_ranges model len fw j :
  image model len fw → 0x22A <= len →
  0 <= j < 0x04 ∨ 0x0C <= j < 0x14 ∨ 0x16 <= j < 0x18
  ∨ 0x2A <= j < len - 0x200
  ∨ j = len - 0x200 + 0x01 ∨ j = len - 0x200 + 0x05
  ∨ len - 0x200 + 0x0E <= j < len - 0x200 + 0x72
  ∨ len - 0x200 + 0x74 <= j < len - 0x100
  ∨ j = len - 0x100 + 0x01 ∨ j = len - 0x100 + 0x05
  ∨ len - 0x100 + 0x0E <= j < len - 0x100 + 0x72
  ∨ len - 0x100 + 0x74 <= j < len →
  byte_at fw j = Some 0.
Proof.
  intros Himg Hlen Hj. apply (image_zero _ _ _ Himg); [lia | ..];
    unfold header_offsets, user_offsets; repeat constructor; lia.
Qed.

(** X5: whatever the model, the image holds 00 DB 1F 0F and "MACh" at
    0x04..0x0B (the bytes [main] asserts among them), 00 00 01 01 06 at
    0x18..0x1C and FF FF at 0x1E..0x1F. *)
Theorem default_firmware_fixed_header (model : Z) :
  ∃ fw, default_firmware model = Some fw
        ∧ slice fw 0x04 8
          = [0x00; 0xDB; 0x1F; 0x0F; chr "M"; chr "A"; chr "C"; 0x68]
        ∧ slice fw 0x18 5 = [0x00; 0x00; 0x01; 0x01; 0x06]
        ∧ slice fw 0x1E 2 = [0xFF; 0xFF].
Proof.
  destruct (default_firmware_image model) as (fw & Hfw & Himg).
  exists fw. split; [exact Hfw|].
  destruct Himg as [_ [H04 H08 _ H18 _ H1E _ _ _ _ _] _ _ _].
  assert (H : holds fw 0x04
                [0x00; 0xDB; 0x1F; 0x0F; chr "M"; chr "A"; chr "C"; 0x68]).
  { cbn [holds] in *. tauto. }
  split; [exact (holds_slice_eq _ _ _ H ltac:(lia))|].
  split; [exact (holds_slice_eq _ _ _ H18 ltac:(lia))|].
  exact (holds_slice_eq _ _ _ H1E ltac:(lia)).
Qed.

(** X6: for a value that is none of the enumerators the second [switch]
    writes nothing, and the byte at 0x1D of the image is 0. *)
Theorem default_firmware_unmapped_1D (model : Z) :
  (∀ m : Model, model ≠ m) →
  ∃ fw, default_firmware model = Some fw ∧ byte_at fw 0x1D = Some 0.
Proof.
  intros Hm.
  destruct (default_firmware_image model) as (fw & Hfw & Himg).
  exists fw. split; [exact Hfw|].
  rewrite (header_1D _ _ _ _ (image_header _ _ _ Himg)).
  unfold enumerator.
  repeat match goal with
         | |- context [model =? Model_value ?m] =>
             destruct (Z.eqb_spec model m) as [He | _];
             [destruct (Hm m He)|]
         end.
  reflexivity.
Qed.

Lemma default_firmware_unmapped_1D_witness :
  (∀ m : Model, -1 ≠ m)
  ∧ ∃ fw, default_firmware (-1) = Some fw ∧ byte_at fw 0x1D = Some 0.
Proof.
  assert (H : ∀ m : Model, -1 ≠ m) by (intros []; discriminate).
  split; [exact H|]. exact (default_firmware_unmapped_1D (-1) H).
Defined.

(** X7: the image is zero wherever no field is written: before, between
    and after the header fields, from 0x2A up to the user settings, and in
    each block of user settings at 0x01, at 0x05, from 0x0E up to the
    checksum and from 0x74 on. *)
Theorem default_firmware_zero_fill (model : Z) :
  ∃ fw, default_firmware model = Some fw
        ∧ let len := Z.of_nat (length fw) in
          ∀ j,
            0 <= j < 0x04 ∨ 0x0C <= j < 0x14 ∨ 0x16 <= j < 0x18
            ∨ 0x2A <= j < len - 0x200
            ∨ j = len - 0x200 + 0x01 ∨ j = len - 0x200 + 0x05
            ∨ len - 0x200 + 0x0E <= j < len - 0x200 + 0x72
            ∨ len - 0x200 + 0x74 <= j < len - 0x100
            ∨ j = len - 0x100 + 0x01 ∨ j = len - 0x100 + 0x05
            ∨ len - 0x100 + 0x0E <= j < len - 0x100 + 0x72
            ∨ len - 0x100 + 0x74 <= j < len →
            byte_at fw j = Some 0.
Proof.
  destruct (default_firmware_image model) as (fw & Hfw & Himg).
  exists fw. split; [exact Hfw|]. cbv zeta.
  rewrite (image_length _ _ _ Himg). intros j Hj.
  pose proof (firmware_len_range model).
  apply (image_zero_ranges _ _ _ _ Himg); [lia | exact Hj].
Qed.

(** ** The image, byte for byte *)

Lemma slice_app fw p n1 n2 :
  0 <= p → 0 <= n1 → 0 <= n2 →
  slice fw p (n1 + n2) = slice fw p n1 ++ slice fw (p + n1) n2.
Proof.
  intros Hp H1 H2. unfold slice.
  replace (Z.to_nat (n1 + n2)) with (Z.to_nat n1 + Z.to_nat n2)%nat by lia.
  rewrite <- take_take_drop, drop_drop. do 3 f_equal. lia.
Qed.

Lemma slice_all fw : slice fw 0 (Z.of_nat (length fw)) = fw.
Proof. unfold slice. rewrite Nat2Z.id. apply firstn_all. Qed.

Lemma all_bytes_slice fw p n : all_bytes fw → all_bytes (slice fw p n).
Proof. intros H. apply Forall_take, Forall_drop, H. Qed.

Lemma holds_app fw a b : ∀ p,
  holds fw p a → holds fw (p + Z.of_nat (length a)) b → holds fw p (a ++ b).
Proof.
  induction a as [|x a IH]; intros p Ha Hb.
  - cbn [length] in Hb. rewrite Z.add_0_r in Hb. exact Hb.
  - destruct Ha as [Hx Ha]. split; [exact Hx|]. apply IH; [exact Ha|].
    replace (p + 1 + Z.of_nat (length a))
      with (p + Z.of_nat (length (x :: a))) by (cbn [length]; lia).
    exact Hb.
Qed.

Lemma holds_replicate fw x n : ∀ p,
  (∀ k, 0 <= k < Z.of_nat n → byte_at fw (p + k) = Some x) →
  holds fw p (replicate n x).
Proof.
  induction n as [|n IH]; intros p Hk; [exact I|].
  split.
  - rewrite <- (Z.add_0_r p). apply Hk. lia.
  - apply IH. intros k Hk'. rewrite <- Z.add_assoc. apply Hk. lia.
Qed.

Ltac split_holds :=
  repeat match goal with
         | |- _ ∧ _ => split
         | |- True => exact I
         end.

Lemma header_closed model fw :
  image model (firmware_len model) fw → all_bytes fw →
  slice fw 0 0x2A = header_of model.
Proof.
  intros Himg Hb. pose proof (firmware_len_range model) as Hr.
  change 0x2A with (Z.of_nat (length (header_of model))).
  apply holds_slice_eq; [|lia].
  pose proof (image_header _ _ _ Himg) as
    [H04 H08 H14 H18 H1D H1E H20 H22 H24 H26 H28].
  apply le16_split in H20; [| exact Hb | apply u16_range].
  apply le16_split in H22; [| exact Hb | lia].
  apply le16_split in H24; [| exact Hb | lia].
  apply le16_split in H26; [| exact Hb | lia].
  apply le16_split in H28; [| exact Hb | lia].
  unfold header_of. cbv zeta in *. cbn [holds] in *.
  destruct (enumerator model) as [[]|];
    repeat match goal with H : _ ∧ _ |- _ => destruct H end;
    split_holds;
    first [ assumption
          | apply (image_zero_ranges _ _ _ _ Himg); lia ].
Qed.

Lemma user_block_closed block active :
  Z.of_nat (length block) = 0x100 → all_bytes block →
  user_fixed block → byte_at block 0x02 = Some active →
  (∀ k, k = 0x01 ∨ k = 0x05 ∨ 0x0E <= k < 0x72 ∨ 0x74 <= k < 0x100 →
        byte_at block k = Some 0) →
  crc_stored block →
  block
  = user_of active (crc16_fold 0xFFFF (user_prefix active ++ replicate 98 0)).
Proof.
  intros Hlen Hb (H0 & H3 & H4 & H6) H2 Hz (crc & Hrun & Hle).
  assert (Hpre : holds block 0 (user_prefix active)).
  { unfold user_prefix. cbn [holds] in *.
    repeat match goal with H : _ ∧ _ |- _ => destruct H end.
    split_holds; first [assumption | apply Hz; lia]. }
  assert (Hcov : slice block 0 0x70 = user_prefix active ++ replicate 98 0).
  { change 0x70
      with (Z.of_nat (length (user_prefix active ++ replicate 98 0))).
    apply holds_slice_eq; [|lia].
    apply holds_app; [exact Hpre|].
    apply holds_replicate. intros k Hk. apply Hz.
    cbn [length user_prefix] in *. lia. }
  rewrite crc16_slice in Hrun by lia. injection Hrun as Hcrc.
  rewrite Hcov in Hcrc. rewrite Hcrc.
  apply le16_split in Hle;
    [| exact Hb | rewrite <- Hcrc; apply crc16_fold_range; lia].
  rewrite <- (slice_all block) at 1. rewrite Hlen.
  change 0x100 with (Z.of_nat (length (user_of active crc))).
  apply holds_slice_eq; [|lia].
  unfold user_of.
  apply holds_app; [exact Hpre|].
  apply holds_app.
  { apply holds_replicate. intros k Hk. apply Hz.
    cbn [length user_prefix] in *. rewrite ?length_replicate in *. lia. }
  apply holds_app.
  { cbn [length user_prefix]. rewrite ?length_replicate. exact Hle. }
  apply holds_replicate. intros k Hk. apply Hz.
  cbn [length user_prefix] in *. rewrite ?length_replicate in *. lia.
Qed.

Lemma user_closed model fw u :
  image model (firmware_len model) fw → all_bytes fw →
  user_bytes u (firmware_len model - 0x200 + u * 0x100) fw → 0 <= u <= 1 →
  slice fw (firmware_len model - 0x200 + u * 0x100) 0x100
  = user_of (if u =? 0 then 1 else 0)
      (crc16_fold 0xFFFF
         (user_prefix (if u =? 0 then 1 else 0) ++ replicate 98 0)).
Proof.
  intros Himg Hb Hu Hu01. pose proof (firmware_len_range model) as Hr.
  pose proof (image_length _ _ _ Himg) as Hlen.
  set (user := firmware_len model - 0x200 + u * 0x100) in *.
  assert (Huser : user = firmware_len model - 0x200
                  ∨ user = firmware_len model - 0x100) by (unfold user; lia).
  destruct (user_fixed_slice u user fw ltac:(lia) Hu) as [Hfix H2].
  apply user_block_closed.
  - apply length_slice; lia.
  - apply all_bytes_slice, Hb.
  - exact Hfix.
  - exact H2.
  - intros k Hk. rewrite byte_at_slice by lia.
    apply (image_zero_ranges _ _ _ _ Himg); lia.
  - apply crc_stored_slice; [lia | lia | apply (user_crc _ _ _ Hu)].
Qed.

Lemma default_firmware_closed model :
  default_firmware model = Some (image_of model).
Proof.
  destruct (default_firmware_image model) as (fw & Hfw & Himg).
  rewrite Hfw. f_equal.
  pose proof (default_firmware_all_bytes _ _ Hfw) as Hb.
  pose proof (firmware_len_range model) as Hr.
  pose proof (image_length _ _ _ Himg) as Hlen.
  set (len := firmware_len model) in *.
  rewrite <- (slice_all fw), Hlen.
  replace len with (0x2A + ((len - 0x22A) + (0x100 + 0x100))) at 1 by lia.
  rewrite !slice_app by lia. unfold image_of. fold len.
  f_equal; [apply header_closed; assumption|].
  f_equal.
  { replace (len - 0x22A) with
      (Z.of_nat (length (replicate (Z.to_nat (len - 0x22A)) 0))) at 1
      by (rewrite length_replicate; lia).
    apply holds_slice_eq; [|lia].
    apply holds_replicate. intros k Hk.
    apply (image_zero_ranges _ _ _ _ Himg); lia. }
  f_equal.
  - replace (0 + 0x2A + (len - 0x22A)) with (len - 0x200 + 0 * 0x100) by lia.
    apply (user_closed model fw 0); [assumption | assumption | | lia].
    replace (firmware_len model - 0x200 + 0 * 0x100) with (len - 0x200)
      by (unfold len; lia).
    apply (image_user_0 _ _ _ Himg).
  - replace (0 + 0x2A + (len - 0x22A) + 0x100) with (len - 0x200 + 1 * 0x100)
      by lia.
    apply (user_closed model fw 1); [assumption | assumption | | lia].
    replace (firmware_len model - 0x200 + 1 * 0x100) with (len - 0x100)
      by (unfold len; lia).
    apply (image_user_1 _ _ _ Himg).
Qed.

(** X8: [default_firmware] returns the image written out in [image_of]:
    the header fields, zeros up to the user settings, and the two blocks
    of user settings, the same for every model, whose checksums are 0xBBC7
    and 0x0C8E. *)
Theorem default_firmware_byte_for_byte (model : Z) :
  default_firmware model = Some (image_of model)
  ∧ Z.of_nat (length (image_of model)) = firmware_len model.
Proof.
  split; [apply default_firmware_closed|].
  pose proof (firmware_len_range model).
  unfold image_of, user_of. rewrite !length_app, !length_replicate.
  cbn [length header_of user_prefix]. lia.
Qed.

(** X9: the images of two values for which the first [switch] chooses the
    same length (Ds and Lite, Ique and IqueLite, Ds and any value that is
    no enumerator) differ at most in the byte at 0x1D. *)
Theorem default_firmware_same_length (model model' : Z) :
  firmware_len model = firmware_len model' →
  ∃ fw fw',
    default_firmware model = Some fw
    ∧ default_firmware model' = Some fw'
    ∧ length fw = length fw'
    ∧ ∀ j, j ≠ 0x1D → byte_at fw j = byte_at fw' j.
Proof.
  intros Hlen. exists (image_of model), (image_of model').
  split; [apply default_firmware_closed|].
  split; [apply default_firmware_closed|].
  unfold image_of. rewrite <- Hlen.
  set (rest := replicate _ _ ++ _).
  assert (Hh : length (header_of model) = length (header_of model'))
    by reflexivity.
  split; [rewrite !length_app; lia|].
  intros j Hj. unfold byte_at. destruct (0 <=? j) eqn:H0; [|reflexivity].
  apply Z.leb_le in H0.
  destruct (decide (Z.to_nat j < length (header_of model))%nat) as [Hlt | Hge].
  - rewrite !lookup_app_l by lia.
    unfold header_of. rewrite <- Hlen. cbv zeta.
    remember (Z.to_nat j) as n eqn:Hn. cbn [length header_of] in Hlt.
    do 29 (destruct n as [|n]; [reflexivity|]).
    destruct n as [|n]; [lia|].
    do 12 (destruct n as [|n]; [reflexivity|]).
    lia.
  - rewrite !lookup_app_r by lia. rewrite Hh. reflexivity.
Qed.

Lemma default_firmware_same_length_witness :
  firmware_len Ds = firmware_len Lite
  ∧ ∃ fw fw',
      default_firmware Ds = Some fw
      ∧ default_firmware Lite = Some fw'
      ∧ length fw = length fw'
      ∧ ∀ j, j ≠ 0x1D → byte_at fw j = byte_at fw' j.
Proof.
  split; [reflexivity|].
  apply (default_firmware_same_length Ds Lite). reflexivity.
Defined.

(** X10: [main] ends in one of two ways.  If the file cannot be created it
    reports so and returns 1, having written nothing.  Otherwise it writes
    the 0x40000 bytes of the image for Ds, none of its four assertions
    fails, and it returns 0. *)
Theorem main_returns (opened : bool) :
  ∃ fw,
    default_firmware Ds = Some fw
    ∧ main opened =
        if opened
        then ([Open "firmware_dust.bin"; Write fw; Close;
               Cout "Saved firmware_dust.bin ("; CoutSize 0x40000;
               Cout (" bytes)" ++ nl);
               Cout ("Basic sanity check passed." ++ nl)],
              Return 0)
        else ([Open "firmware_dust.bin";
               Cerr ("Failed to create file" ++ nl)],
              Return 1).
Proof.
  destruct (default_firmware_image Ds) as (fw & Hfw & Himg).
  exists fw. split; [exact Hfw|].
  unfold main, main_body. cbv zeta. rewrite Hfw.
  destruct opened; [|reflexivity]. cbn [negb].
  pose proof (header_08 _ _ _ _ (image_header _ _ _ Himg)) as H08.
  cbn [holds] in H08. destruct H08 as (H8 & H9 & HA & HB & _).
  rewrite <- Z.add_assoc in HA. rewrite <- !Z.add_assoc in HB.
  unfold assert_byte.
  rewrite H8. cbn [Z.eqb chr]. 
  rewrite (image_length _ _ _ Himg).
  change (0x08 + 1) with 0x09 in H9. rewrite H9.
  change (0x08 + (1 + 1)) with 0x0A in HA. rewrite HA.
  change (0x08 + (1 + (1 + 1))) with 0x0B in HB. rewrite HB.
  reflexivity.
Qed.

End dust.
